(** * flaskbb/admin/models.py: settings registry and form synthesis

    A shallow embedding of [SettingsGroup] and [Setting] with the class
    methods [get_form], [get_all], [update] and [as_dict], followed by the
    properties of the specification that concern them.

    Modelling conventions.
    - Python strings are [string]; [lower] and [upper] fold the ASCII
      letters and leave every other byte alone. The properties use of the
      two foldings only that each is idempotent; whatever else a statement
      needs of them (that a stored key is what lower-casing its upper-cased
      form gives, that two keys differ after folding) is a hypothesis of
      that statement.
    - The column [extra] holds [None] or a mapping; other pickled objects
      are not represented, and no statement concludes that [extra] is a
      mapping from the synthesis having returned.
    - Python objects whose structure the module never inspects (stored
      values, bounds, choice producers, coercion callables) are an abstract
      type [pyobj]; calling such an object with no argument is the function
      [call], which may raise.
    - Exceptions are the constructors of [exn]; a computation that may raise
      is a [result].
    - What the module takes from its libraries without showing it is a
      parameter of the model: the assertions with which wtforms' [Length]
      checks its arguments, Python's [==] on stored values, with which the
      session decides whether an attribute has changed, and the writing of
      a value into the NOT NULL pickle column.
    - The two tables are lists of rows in storage order; the session's
      add-then-commit of a modified row is [session_commit]. *)

From Stdlib Require Import Ascii String.
From stdpp Require Import gmap strings list fin_maps.


(** ** Exceptions *)

Inductive exn : Type :=
| TypeError        (* operation on an object of the wrong type, e.g. [in None] *)
| KeyError         (* dict subscript with an absent key *)
| AttributeError   (* attribute access on an object lacking it, e.g. on None *)
| NotFound         (* werkzeug's 404, raised by [first_or_404] *)
| AssertionError   (* a failed [assert] *)
| IntegrityError   (* a constraint of the database refused a statement *)
| Raised (tag : string). (* anything a user-supplied callable raises *)

Inductive result (A : Type) : Type :=
| Ok (a : A)
| Raise (e : exn).
Arguments Ok {A} a.
Arguments Raise {A} e.

(** Sequencing: the first exception aborts what follows. It is written
    [x ← m; k] below. *)
#[global] Instance result_bind : MBind result := λ A B k m,
  match m with
  | Ok a => k a
  | Raise e => Raise e
  end.

Definition is_ok {A : Type} (m : result A) : bool :=
  match m with Ok _ => true | Raise _ => false end.

(** ** Strings *)

(** [c.lower()] on one byte. *)
Definition ascii_lower (c : ascii) : ascii :=
  let n := nat_of_ascii c in
  if (65 <=? n)%nat && (n <=? 90)%nat then ascii_of_nat (n + 32) else c.

(** [c.upper()] on one byte. *)
Definition ascii_upper (c : ascii) : ascii :=
  let n := nat_of_ascii c in
  if (97 <=? n)%nat && (n <=? 122)%nat then ascii_of_nat (n - 32) else c.

(** [s.lower()] *)
Fixpoint str_lower (s : string) : string :=
  match s with
  | EmptyString => EmptyString
  | String c s' => String (ascii_lower c) (str_lower s')
  end.

(** [s.upper()] *)
Fixpoint str_upper (s : string) : string :=
  match s with
  | EmptyString => EmptyString
  | String c s' => String (ascii_upper c) (str_upper s')
  end.

(** [p in s] for two strings: [p] occurs in [s] as a substring. *)
Fixpoint str_contains (p s : string) : bool :=
  String.prefix p s ||
  match s with
  | EmptyString => false
  | String _ s' => str_contains p s'
  end.

(** [x in (a, b, ...)] for a tuple of strings. *)
Definition in_tuple (x : string) (t : list string) : bool :=
  existsb (String.eqb x) t.

Section Models.

(** Opaque Python objects, and the outcome of calling one with no argument. *)
Variable pyobj : Type.
Variable call : pyobj -> result pyobj.

(** [validators.Length(min=, max=)] checks its arguments with two [assert]s
    before it stores them; the class belongs to wtforms. [length_accepts]
    tells whether they pass for the keyword arguments that are given
    ([None]: the argument is left at its default). *)
Variable length_accepts : option pyobj -> option pyobj -> bool.

(** Python's [new == old] on two values of the column [value]: the unit of
    work of the session issues an UPDATE for the column only when the
    assigned value does not compare equal to the loaded one. *)
Variable py_eq : pyobj -> pyobj -> bool.

(** Writing a value into the column [value]: it is pickled, and the column
    is declared [nullable=False] (line 31), so that [None] and values that
    cannot be pickled make the flush raise. *)
Variable store_value : pyobj -> result unit.

(** ** Tables *)

(** A row of [settingsgroup]; the [settings] relationship is [group_settings]
    below. *)
Record SettingsGroup : Type := {
  group_key : string;
  group_name : string;
  group_description : string
}.

(** A row of [settings]. [extra] is a nullable pickled mapping. *)
Record Setting : Type := {
  key : string;
  value : pyobj;
  settingsgroup : string;
  name : string;
  description : string;
  value_type : string;
  extra : option (gmap string pyobj)
}.

(** [setting.value = v] *)
Definition set_value (setting : Setting) (v : pyobj) : Setting :=
  {| key := key setting; value := v; settingsgroup := settingsgroup setting;
     name := name setting; description := description setting;
     value_type := value_type setting; extra := extra setting |}.

Record database : Type := {
  groups : list SettingsGroup;
  settings : list Setting
}.

(** [group.settings]: the rows whose foreign key is the group's key. *)
Definition group_settings (db : database) (group : SettingsGroup) : list Setting :=
  filter (fun s => settingsgroup s = group_key group) (settings db).

(** [cls.query.filter(Setting.key == k).first()]; [None] when no row matches. *)
Definition query_setting (db : database) (k : string) : option Setting :=
  find (fun s => String.eqb (key s) k) (settings db).

(** [SettingsGroup.query.filter_by(key=k).first_or_404()] *)
Definition group_first_or_404 (db : database) (k : string) : result SettingsGroup :=
  match find (fun g => String.eqb (group_key g) k) (groups db) with
  | Some g => Ok g
  | None => Raise NotFound
  end.

(** [UPDATE settings SET value = ? WHERE key = ?] with the value and the
    key of [setting]. *)
Definition commit (setting : Setting) (db : database) : database :=
  {| groups := groups db;
     settings := map (fun r => if String.eqb (key r) (key setting)
                               then set_value r (value setting) else r)
                     (settings db) |}.

(** [db.session.add(setting); db.session.commit()] for a row that was
    loaded with the value [original] and whose [value] was assigned since:
    nothing is written when the two compare equal; otherwise the value is
    written, which may raise, and the UPDATE is issued. *)
Definition session_commit (original : pyobj) (setting : Setting)
    (db : database) : result database :=
  if py_eq (value setting) original then Ok db
  else _ ← store_value (value setting); Ok (commit setting db).

(** ** Form descriptors *)

(** [validators.NumberRange(min=, max=)] and [validators.Length(min=, max=)]
    once constructed; [None] is a keyword argument left at its default. *)
Inductive validator : Type :=
| NumberRange (min max : option pyobj)
| Length (min max : option pyobj).

(** The call [validators.Length(min=, max=)]. *)
Definition Length_init (min max : option pyobj) : result validator :=
  if length_accepts min max then Ok (Length min max)
  else Raise AssertionError.

(** The [coerce] argument of the select fields. *)
Inductive coercion : Type :=
| unicode
| coerce_with (f : pyobj).

Inductive field : Type :=
| IntegerField (label : string) (validators : list validator) (descr : string)
| FloatField (label : string) (validators : list validator) (descr : string)
| TextField (label : string) (validators : list validator) (descr : string)
| SelectMultipleField (label : string) (choices : pyobj) (coerce : coercion)
                      (descr : string)
| SelectField (label : string) (coerce : coercion) (choices : pyobj)
              (descr : string)
| BooleanField (label : string) (descr : string).

Definition field_label (f : field) : string :=
  match f with
  | IntegerField l _ _ | FloatField l _ _ | TextField l _ _
  | SelectMultipleField l _ _ _ | SelectField l _ _ _ | BooleanField l _ => l
  end.

Definition field_description (f : field) : string :=
  match f with
  | IntegerField _ _ d | FloatField _ _ d | TextField _ _ d
  | SelectMultipleField _ _ _ d | SelectField _ _ _ d | BooleanField _ d => d
  end.

Definition field_validators (f : field) : list validator :=
  match f with
  | IntegerField _ vs _ | FloatField _ vs _ | TextField _ vs _ => vs
  | SelectMultipleField _ _ _ _ | SelectField _ _ _ _ | BooleanField _ _ => []
  end.

(** The attributes that [setattr] has put on the class [SettingsForm]. *)
Abbreviation form := (gmap string field).

(** ** Operations on [setting.extra] *)

(** [k in setting.extra] *)
Definition extra_contains (k : string) (e : option (gmap string pyobj)) : result bool :=
  match e with
  | None => Raise TypeError
  | Some d => Ok (bool_decide (is_Some (d !! k)))
  end.

(** [setting.extra[k]] *)
Definition extra_getitem (e : option (gmap string pyobj)) (k : string) : result pyobj :=
  match e with
  | None => Raise TypeError
  | Some d => match d !! k with
              | Some v => Ok v
              | None => Raise KeyError
              end
  end.

(** ** [Setting.get_form] *)

(** Lines 64-91: the validators of one setting. *)
Definition gen_validators (setting : Setting) : result (list validator) :=
  let field_validators := [] in
  has_min ← extra_contains "min" (extra setting);
  field_validators ←
    (if has_min : bool then
       if in_tuple (value_type setting) ["integer"; "float"] then
         m ← extra_getitem (extra setting) "min";
         Ok (field_validators ++ [NumberRange (Some m) None])
       else if str_contains (value_type setting) "string" then
         m ← extra_getitem (extra setting) "min";
         v ← Length_init (Some m) None;
         Ok (field_validators ++ [v])
       else Ok field_validators
     else Ok field_validators);
  has_max ← extra_contains "max" (extra setting);
  (if has_max : bool then
     if in_tuple (value_type setting) ["integer"; "float"] then
       m ← extra_getitem (extra setting) "max";
       Ok (field_validators ++ [NumberRange None (Some m)])
     else if str_contains (value_type setting) "string" then
       m ← extra_getitem (extra setting) "max";
       v ← Length_init None (Some m);
       Ok (field_validators ++ [v])
     else Ok field_validators
   else Ok field_validators).

(** Lines 120-123 and 138-141: the coercion of a select field. *)
Definition gen_coerce (setting : Setting) : result coercion :=
  has_coerce ← extra_contains "coerce" (extra setting);
  if has_coerce : bool then
    c ← extra_getitem (extra setting) "coerce"; Ok (coerce_with c)
  else Ok unicode.

(** [setting.extra['choices']()] *)
Definition gen_choices (setting : Setting) : result pyobj :=
  producer ← extra_getitem (extra setting) "choices";
  call producer.

(** Lines 93-157: the chain of [if]s on [value_type]; each [setattr] is an
    insertion into the class attributes. *)
Definition gen_field (setting : Setting) (field_validators : list validator)
    (SettingsForm : form) : result form :=
  SettingsForm ←
    (if String.eqb (value_type setting) "integer" then
       Ok (<[key setting :=
               IntegerField (name setting) field_validators (description setting)]>
             SettingsForm)
     else if String.eqb (value_type setting) "float" then
       Ok (<[key setting :=
               FloatField (name setting) field_validators (description setting)]>
             SettingsForm)
     else Ok SettingsForm);
  SettingsForm ←
    (if String.eqb (value_type setting) "string" then
       Ok (<[key setting :=
               TextField (name setting) field_validators (description setting)]>
             SettingsForm)
     else Ok SettingsForm);
  SettingsForm ←
    (if String.eqb (value_type setting) "selectmultiple" then
       coerce_to ← gen_coerce setting;
       choices ← gen_choices setting;
       Ok (<[key setting :=
               SelectMultipleField (name setting) choices coerce_to
                                   (description setting)]> SettingsForm)
     else Ok SettingsForm);
  SettingsForm ←
    (if String.eqb (value_type setting) "select" then
       coerce_to ← gen_coerce setting;
       choices ← gen_choices setting;
       Ok (<[key setting :=
               SelectField (name setting) coerce_to choices
                           (description setting)]> SettingsForm)
     else Ok SettingsForm);
  if String.eqb (value_type setting) "boolean" then
    Ok (<[key setting := BooleanField (name setting) (description setting)]>
          SettingsForm)
  else Ok SettingsForm.

(** One iteration of the loop at line 63. *)
Definition get_form_setting (setting : Setting) (SettingsForm : form) : result form :=
  field_validators ← gen_validators setting;
  gen_field setting field_validators SettingsForm.

(** The loop at line 63, stopping at the first exception. *)
Fixpoint get_form_loop (l : list Setting) (SettingsForm : form) : result form :=
  match l with
  | [] => Ok SettingsForm
  | setting :: rest =>
      SettingsForm ← get_form_setting setting SettingsForm;
      get_form_loop rest SettingsForm
  end.

Definition get_form (db : database) (group : SettingsGroup) : result form :=
  get_form_loop (group_settings db group) ∅.

(** ** [Setting.get_all] *)

Definition get_all (db : database) : list Setting := settings db.

(** ** [Setting.update] *)

(** The Flask application, of which [update] only touches [app.config]. *)
Record App : Type := { config : gmap string pyobj }.

(** [app.config.update(d)]: the entries of [d] are written over the config. *)
Definition config_update (app : App) (d : gmap string pyobj) : App :=
  {| config := d ∪ config app |}.

(** Lines 174-181, one entry. [.first()] gives [None] for an unknown key
    and the assignment to [setting.value] then raises. *)
Definition update_entry (k : string) (v : pyobj) (db : database)
    (updated_settings : gmap string pyobj)
    : result (database * gmap string pyobj) :=
  match query_setting db (str_lower k) with
  | None => Raise AttributeError
  | Some setting =>
      let original := value setting in
      let setting := set_value setting v in
      let updated_settings :=
        <[str_upper (key setting) := value setting]> updated_settings in
      db ← session_commit original setting db;
      Ok (db, updated_settings)
  end.

(** The loop at line 173. [items] is the sequence [settings.iteritems()]
    yields. The database is returned as it stands after the last commit,
    also when an iteration raises. *)
Fixpoint update_loop (items : list (string * pyobj)) (db : database)
    (updated_settings : gmap string pyobj)
    : database * result (gmap string pyobj) :=
  match items with
  | [] => (db, Ok updated_settings)
  | (k, v) :: rest =>
      match update_entry k v db updated_settings with
      | Ok (db, updated_settings) => update_loop rest db updated_settings
      | Raise e => (db, Raise e)
      end
  end.

Definition update (db : database) (items : list (string * pyobj))
    (app : option App) : database * option App * result unit :=
  match update_loop items db ∅ with
  | (db', Ok updated_settings) =>
      (db',
       match app with
       | Some a => Some (config_update a updated_settings)
       | None => None
       end,
       Ok tt)
  | (db', Raise e) => (db', app, Raise e)
  end.

(** ** [Setting.as_dict] *)

(** Lines 203-207. *)
Definition as_dict_loop (upper : bool) (rows : list Setting)
    (acc : gmap string pyobj) : gmap string pyobj :=
  fold_left
    (fun acc setting =>
       if upper then <[str_upper (key setting) := value setting]> acc
       else <[key setting := value setting]> acc)
    rows acc.

Definition as_dict (db : database) (from_group : option string) (upper : bool)
    : result (gmap string pyobj) :=
  rows ← match from_group with
         | Some g =>
             group ← group_first_or_404 db g;
             Ok (group_settings db group)
         | None => Ok (settings db)
         end;
  Ok (as_dict_loop upper rows ∅).

(** ** [SettingsGroup.delete] and [Setting.delete] *)

(** Lines 21-24, [db.session.delete(self); db.session.commit()] on a group.
    The relationship [settings] is declared with cascade "all,
    delete-orphan" (lines 13-14): the rows of [group.settings] are deleted
    with the group. *)
Definition SettingsGroup_delete (self : SettingsGroup) (db : database) : database :=
  {| groups := filter (fun g => group_key g ≠ group_key self) (groups db);
     settings := filter (fun s => settingsgroup s ≠ group_key self)
                        (settings db) |}.

(** Lines 216-219, the same on a setting: its row is deleted. *)
Definition Setting_delete (self : Setting) (db : database) : database :=
  {| groups := groups db;
     settings := filter (fun s => key s ≠ key self) (settings db) |}.

End Models.

Arguments key {pyobj} _.
Arguments value {pyobj} _.
Arguments settingsgroup {pyobj} _.
Arguments name {pyobj} _.
Arguments description {pyobj} _.
Arguments value_type {pyobj} _.
Arguments extra {pyobj} _.
Arguments groups {pyobj} _.
Arguments settings {pyobj} _.
Arguments config {pyobj} _.
Arguments set_value {pyobj} _ _.
Arguments group_settings {pyobj} _ _.
Arguments query_setting {pyobj} _ _.
Arguments group_first_or_404 {pyobj} _ _.
Arguments commit {pyobj} _ _.
Arguments NumberRange {pyobj} _ _.
Arguments Length {pyobj} _ _.
Arguments unicode {pyobj}.
Arguments coerce_with {pyobj} _.
Arguments IntegerField {pyobj} _ _ _.
Arguments FloatField {pyobj} _ _ _.
Arguments TextField {pyobj} _ _ _.
Arguments SelectMultipleField {pyobj} _ _ _ _.
Arguments SelectField {pyobj} _ _ _ _.
Arguments BooleanField {pyobj} _ _.
Arguments field_label {pyobj} _.
Arguments field_description {pyobj} _.
Arguments field_validators {pyobj} _.
Arguments extra_contains {pyobj} _ _.
Arguments extra_getitem {pyobj} _ _.
Arguments session_commit {pyobj} _ _ _ _ _.
Arguments Length_init {pyobj} _ _ _.
Arguments gen_validators {pyobj} _ _.
Arguments gen_coerce {pyobj} _.
Arguments gen_choices {pyobj} _ _.
Arguments gen_field {pyobj} _ _ _ _.
Arguments get_form_setting {pyobj} _ _ _ _.
Arguments get_form_loop {pyobj} _ _ _ _.
Arguments get_form {pyobj} _ _ _ _.
Arguments get_all {pyobj} _.
Arguments config_update {pyobj} _ _.
Arguments update_entry {pyobj} _ _ _ _ _ _.
Arguments update_loop {pyobj} _ _ _ _ _.
Arguments update {pyobj} _ _ _ _ _.
Arguments as_dict_loop {pyobj} _ _ _.
Arguments as_dict {pyobj} _ _ _.
Arguments SettingsGroup_delete {pyobj} _ _.
Arguments Setting_delete {pyobj} _ _.

(** ** Sample data *)

Module Sample.

(** A small universe of Python objects: [None], booleans, integers,
    strings, lists of (value, label) pairs and named zero-argument
    functions. *)
Inductive obj : Type :=
| NoneVal
| Bool (b : bool)
| Int (n : Z)
| Str (s : string)
| Pairs (l : list (string * string))
| Fun (f : string).

(** [available_themes] produces two options, [broken] raises, anything else
    is not callable. *)
Definition call (o : obj) : result obj :=
  match o with
  | Fun "available_themes" => Ok (Pairs [("light", "Light"); ("dark", "Dark")])
  | Fun "broken" => Raise (Raised "IOError")
  | _ => Raise TypeError
  end.

(** Booleans are integers: [True == 1]. *)
Definition as_int (o : obj) : option Z :=
  match o with
  | Bool b => Some (if b then 1 else 0)%Z
  | Int n => Some n
  | _ => None
  end.

(** [a == b] *)
Definition py_eq (a b : obj) : bool :=
  match as_int a, as_int b with
  | Some m, Some n => Z.eqb m n
  | None, None =>
      match a, b with
      | NoneVal, NoneVal => true
      | Str x, Str y => String.eqb x y
      | Pairs x, Pairs y => bool_decide (x = y)
      | Fun x, Fun y => String.eqb x y
      | _, _ => false
      end
  | _, _ => false
  end.

(** [a <= b]: numbers by value; [None] sorts before everything and numbers
    before the other objects; the order among those is not needed here. *)
Definition py_le (a b : obj) : bool :=
  match as_int a, as_int b with
  | Some m, Some n => Z.leb m n
  | Some _, None => negb (py_eq b NoneVal)
  | None, _ => py_eq a NoneVal || py_eq a b
  end.

(** [Length.__init__(self, min=-1, max=-1)]:
    [assert min != -1 or max != -1] and [assert max == -1 or min <= max]. *)
Definition length_accepts (min max : option obj) : bool :=
  let min := default (Int (-1)) min in
  let max := default (Int (-1)) max in
  (negb (py_eq min (Int (-1))) || negb (py_eq max (Int (-1)))) &&
  (py_eq max (Int (-1)) || py_le min max).

(** [None] violates NOT NULL; the other objects here can be pickled. *)
Definition store_value (v : obj) : result unit :=
  match v with
  | NoneVal => Raise IntegrityError
  | _ => Ok tt
  end.

Definition mk (k : string) (v : obj) (g n d t : string)
    (e : option (gmap string obj)) : Setting obj :=
  {| key := k; value := v; settingsgroup := g; name := n; description := d;
     value_type := t; extra := e |}.

Definition general : SettingsGroup :=
  {| group_key := "general"; group_name := "General";
     group_description := "General settings" |}.

Definition appearance : SettingsGroup :=
  {| group_key := "appearance"; group_name := "Appearance";
     group_description := "Look and feel" |}.

Definition site_name : Setting obj :=
  mk "site_name" (Str "FlaskBB") "general" "Site name" "Name of the site"
     "string" (Some {[ "min" := Int 3 ]}).

Definition per_page : Setting obj :=
  mk "per_page" (Int 10) "general" "Per page" "Items per page"
     "integer" (Some {[ "min" := Int 3; "max" := Int 100 ]}).

Definition theme : Setting obj :=
  mk "theme" (Str "light") "appearance" "Theme" "Default theme"
     "select" (Some {[ "choices" := Fun "available_themes" ]}).

Definition db : database obj :=
  {| groups := [general; appearance];
     settings := [site_name; per_page; theme] |}.

(** Rows that get_form cannot or does not render. *)
Definition registration : Setting obj :=
  mk "registration" (Int 1) "general" "Registration" "Allow new accounts"
     "boolean" None.

Definition language : Setting obj :=
  mk "language" (Str "en") "appearance" "Language" "Default language"
     "select" (Some {[ "max" := Int 5 ]}).

Definition language_g : Setting obj :=
  mk "language" (Str "en") "general" "Language" "Default language"
     "select" (Some {[ "max" := Int 5 ]}).

Definition accent : Setting obj :=
  mk "accent" (Str "#fff") "appearance" "Accent" "Accent colour"
     "colour" (Some {[ "min" := Int 4 ]}).

Definition accent_unset : Setting obj :=
  mk "accent" (Str "#fff") "appearance" "Accent" "Accent colour"
     "colour" None.

(** Bounds that [Length] refuses: on a string setting, and on a setting whose
    kind is no kind but occurs in the word "string". *)
Definition nickname : Setting obj :=
  mk "nickname" (Str "") "general" "Nickname" "Shown name"
     "string" (Some {[ "min" := Int (-1) ]}).

Definition ring : Setting obj :=
  mk "ring" (Str "") "general" "Ring" "Ring tone"
     "ring" (Some {[ "min" := Int (-1) ]}).

(** A row whose key is not in lower case. *)
Definition title : Setting obj :=
  mk "Title" (Str "old") "general" "Title" "Page title" "string" (Some ∅).

(** Two rows whose keys differ in case only. *)
Definition row_a : Setting obj :=
  mk "a" (Int 1) "general" "a" "first" "integer" (Some ∅).

Definition row_A : Setting obj :=
  mk "A" (Int 2) "general" "A" "second" "integer" (Some ∅).

Definition db_with (rows : list (Setting obj)) : database obj :=
  {| groups := [general; appearance]; settings := rows |}.

Definition no_config : App obj := {| config := ∅ |}.

End Sample.

(** * Properties *)

(** ** Case folding *)

Lemma ascii_lower_idemp c : ascii_lower (ascii_lower c) = ascii_lower c.
Proof. destruct c as [[] [] [] [] [] [] [] []]; reflexivity. Qed.

Lemma ascii_upper_idemp c : ascii_upper (ascii_upper c) = ascii_upper c.
Proof. destruct c as [[] [] [] [] [] [] [] []]; reflexivity. Qed.

Lemma str_lower_idemp s : str_lower (str_lower s) = str_lower s.
Proof. induction s as [|c s IH]; simpl; [done|]. by rewrite ascii_lower_idemp, IH. Qed.

Lemma str_upper_idemp s : str_upper (str_upper s) = str_upper s.
Proof. induction s as [|c s IH]; simpl; [done|]. by rewrite ascii_upper_idemp, IH. Qed.

(** ** The recognized kinds *)

(** Line 44: string, integer, float, boolean, select, selectmultiple. *)
Definition recognized (vt : string) : bool :=
  in_tuple vt ["integer"; "float"; "string"; "boolean"; "select"; "selectmultiple"].

Definition select_like (vt : string) : bool :=
  in_tuple vt ["select"; "selectmultiple"].

Lemma recognized_cases vt :
  recognized vt = true →
  vt = "integer" ∨ vt = "float" ∨ vt = "string" ∨ vt = "boolean" ∨
  vt = "select" ∨ vt = "selectmultiple".
Proof.
  unfold recognized, in_tuple. cbn [existsb].
  rewrite !orb_true_iff, !String.eqb_eq. intuition auto; discriminate.
Qed.

Lemma select_like_cases vt :
  select_like vt = true → vt = "select" ∨ vt = "selectmultiple".
Proof.
  unfold select_like, in_tuple. cbn [existsb].
  rewrite !orb_true_iff, !String.eqb_eq. intuition auto; discriminate.
Qed.

Lemma not_recognized_eqb vt k :
  recognized vt = false → recognized k = true → String.eqb vt k = false.
Proof.
  intros Hn Hk. destruct (String.eqb_spec vt k) as [->|]; congruence.
Qed.

#[global] Arguments in_tuple : simpl never.
#[global] Arguments str_contains : simpl never.

(** ** The monad *)

Lemma bind_ok {A B} (m : result A) (k : A → result B) a :
  m = Ok a → (m ≫= k) = k a.
Proof. by intros ->. Qed.

Lemma bind_raise {A B} (m : result A) (k : A → result B) e :
  m = Raise e → (m ≫= k) = Raise e.
Proof. by intros ->. Qed.

Lemma bind_inv_ok {A B} (m : result A) (k : A → result B) b :
  (m ≫= k) = Ok b → ∃ a, m = Ok a ∧ k a = Ok b.
Proof. destruct m as [a|e]; [by exists a | discriminate]. Qed.

Section FormProperties.

Context {pyobj : Type}.
Variable call : pyobj → result pyobj.
Variable accepts : option pyobj → option pyobj → bool.
Implicit Types (s : Setting pyobj) (d : gmap string pyobj)
  (F : gmap string (field pyobj)).

(** ** [extra] *)

Lemma extra_getitem_some k s d v :
  extra s = Some d → d !! k = Some v → extra_getitem (extra s) k = Ok v.
Proof. intros -> Hk. simpl. by rewrite Hk. Qed.

Lemma extra_getitem_missing k s d :
  extra s = Some d → d !! k = None → extra_getitem (extra s) k = Raise KeyError.
Proof. intros -> Hk. simpl. by rewrite Hk. Qed.

(** ** The validators *)

(** What the two membership tests append for a bound stored under [k], when
    the validator is constructed. *)
Definition bound_validators (vt : string) (d : gmap string pyobj)
    (k : string) (mk : pyobj → validator pyobj * validator pyobj)
    : list (validator pyobj) :=
  match d !! k with
  | None => []
  | Some m =>
      if in_tuple vt ["integer"; "float"] then [fst (mk m)]
      else if str_contains vt "string" then [snd (mk m)]
      else []
  end.

Definition min_validators vt d :=
  bound_validators vt d "min"
    (λ m, (NumberRange (Some m) None, Length (Some m) None)).

Definition max_validators vt d :=
  bound_validators vt d "max"
    (λ m, (NumberRange None (Some m), Length None (Some m))).

(** Whether [Length] accepts the bound stored under [k], where the code
    constructs a [Length] with it. *)
Definition bound_accepted (vt : string) (d : gmap string pyobj)
    (k : string) (args : pyobj → option pyobj * option pyobj) : bool :=
  match d !! k with
  | None => true
  | Some m =>
      if in_tuple vt ["integer"; "float"] then true
      else if str_contains vt "string"
           then accepts (fst (args m)) (snd (args m))
           else true
  end.

Definition bounds_accepted vt d : bool :=
  bound_accepted vt d "min" (λ m, (Some m, None)) &&
  bound_accepted vt d "max" (λ m, (None, Some m)).

Lemma gen_validators_mapping s d :
  extra s = Some d →
  gen_validators accepts s =
    if bounds_accepted (value_type s) d
    then Ok (min_validators (value_type s) d ++ max_validators (value_type s) d)
    else Raise AssertionError.
Proof.
  intros He. unfold gen_validators, bounds_accepted, bound_accepted,
    min_validators, max_validators, bound_validators, Length_init.
  rewrite He. simpl.
  destruct (d !! "min") as [m|] eqn:Hmin, (d !! "max") as [M|] eqn:Hmax;
    simpl; rewrite ?Hmin, ?Hmax; simpl;
    destruct (in_tuple (value_type s) ["integer"; "float"]);
    destruct (str_contains (value_type s) "string"); simpl;
    rewrite ?Hmin, ?Hmax; try reflexivity;
    repeat match goal with
           | |- context [accepts ?a ?b] => destruct (accepts a b); simpl
           end;
    rewrite ?Hmin, ?Hmax; reflexivity.
Qed.

Lemma gen_validators_some s d :
  extra s = Some d →
  bounds_accepted (value_type s) d = true →
  gen_validators accepts s =
    Ok (min_validators (value_type s) d ++ max_validators (value_type s) d).
Proof. intros He Hb. by rewrite (gen_validators_mapping _ _ He), Hb. Qed.

Lemma gen_validators_none s :
  extra s = None → gen_validators accepts s = Raise TypeError.
Proof. intros He. unfold gen_validators. by rewrite He. Qed.

(** [Length] is constructed only for kinds that occur in the word
    "string"; for the others every bound passes. *)
Lemma bounds_accepted_numeric vt d :
  in_tuple vt ["integer"; "float"] = true → bounds_accepted vt d = true.
Proof.
  intros Hvt. unfold bounds_accepted, bound_accepted. rewrite Hvt.
  by destruct (d !! "min"), (d !! "max").
Qed.

Lemma bounds_accepted_not_text vt d :
  str_contains vt "string" = false → bounds_accepted vt d = true.
Proof.
  intros Hvt. unfold bounds_accepted, bound_accepted. rewrite Hvt.
  destruct (in_tuple vt _); by destruct (d !! "min"), (d !! "max").
Qed.

Lemma bounds_accepted_select_like vt d :
  select_like vt = true → bounds_accepted vt d = true.
Proof.
  intros Hvt. apply bounds_accepted_not_text.
  by destruct (select_like_cases _ Hvt) as [-> | ->].
Qed.

(** ** The select fields *)

Definition coerce_of d : coercion pyobj :=
  match d !! "coerce" with
  | Some c => coerce_with c
  | None => unicode
  end.

Lemma gen_coerce_some s d :
  extra s = Some d → gen_coerce s = Ok (coerce_of d).
Proof.
  intros He. unfold gen_coerce, coerce_of. rewrite He. simpl.
  destruct (d !! "coerce") as [c|] eqn:Hc; simpl; by rewrite ?Hc.
Qed.

Lemma gen_choices_some s d p :
  extra s = Some d → d !! "choices" = Some p → gen_choices call s = call p.
Proof.
  intros He Hp. unfold gen_choices.
  by rewrite (extra_getitem_some _ _ _ _ He Hp).
Qed.

Lemma gen_choices_missing s d :
  extra s = Some d → d !! "choices" = None →
  gen_choices call s = Raise KeyError.
Proof.
  intros He Hp. unfold gen_choices.
  by rewrite (extra_getitem_missing _ _ _ He Hp).
Qed.

(** ** One setting, kind by kind *)

Lemma gen_field_integer s vs F :
  value_type s = "integer" →
  gen_field call s vs F =
    Ok (<[key s := IntegerField (name s) vs (description s)]> F).
Proof. intros Hvt. unfold gen_field. by rewrite Hvt. Qed.

Lemma gen_field_float s vs F :
  value_type s = "float" →
  gen_field call s vs F =
    Ok (<[key s := FloatField (name s) vs (description s)]> F).
Proof. intros Hvt. unfold gen_field. by rewrite Hvt. Qed.

Lemma gen_field_string s vs F :
  value_type s = "string" →
  gen_field call s vs F =
    Ok (<[key s := TextField (name s) vs (description s)]> F).
Proof. intros Hvt. unfold gen_field. by rewrite Hvt. Qed.

Lemma gen_field_boolean s vs F :
  value_type s = "boolean" →
  gen_field call s vs F =
    Ok (<[key s := BooleanField (name s) (description s)]> F).
Proof. intros Hvt. unfold gen_field. by rewrite Hvt. Qed.

Lemma gen_field_selectmultiple s vs F :
  value_type s = "selectmultiple" →
  gen_field call s vs F =
    (coerce_to ← gen_coerce s;
     choices ← gen_choices call s;
     Ok (<[key s := SelectMultipleField (name s) choices coerce_to
                                         (description s)]> F)).
Proof.
  intros Hvt. unfold gen_field. rewrite Hvt. simpl.
  destruct (gen_coerce s) as [c|e]; [|done]. simpl.
  by destruct (gen_choices call s).
Qed.

Lemma gen_field_select s vs F :
  value_type s = "select" →
  gen_field call s vs F =
    (coerce_to ← gen_coerce s;
     choices ← gen_choices call s;
     Ok (<[key s := SelectField (name s) coerce_to choices
                                 (description s)]> F)).
Proof.
  intros Hvt. unfold gen_field. rewrite Hvt. simpl.
  destruct (gen_coerce s) as [c|e]; [|done]. simpl.
  by destruct (gen_choices call s).
Qed.

Lemma gen_field_unrecognized s vs F :
  recognized (value_type s) = false → gen_field call s vs F = Ok F.
Proof.
  intros Hvt. unfold gen_field.
  by rewrite !(not_recognized_eqb _ _ Hvt).
Qed.

(** ** One iteration *)

Lemma get_form_setting_none s F :
  extra s = None → get_form_setting call accepts s F = Raise TypeError.
Proof.
  intros He. unfold get_form_setting. by rewrite (gen_validators_none _ He).
Qed.

Lemma get_form_setting_mapping s d F :
  extra s = Some d →
  get_form_setting call accepts s F =
    if bounds_accepted (value_type s) d
    then gen_field call s
           (min_validators (value_type s) d ++ max_validators (value_type s) d)
           F
    else Raise AssertionError.
Proof.
  intros He. unfold get_form_setting. rewrite (gen_validators_mapping _ _ He).
  by destruct (bounds_accepted (value_type s) d).
Qed.

Lemma get_form_setting_some s d F :
  extra s = Some d →
  bounds_accepted (value_type s) d = true →
  get_form_setting call accepts s F =
    gen_field call s
      (min_validators (value_type s) d ++ max_validators (value_type s) d) F.
Proof. intros He Hb. by rewrite (get_form_setting_mapping _ _ _ He), Hb. Qed.

Lemma get_form_setting_unrecognized s d F :
  extra s = Some d →
  bounds_accepted (value_type s) d = true →
  recognized (value_type s) = false →
  get_form_setting call accepts s F = Ok F.
Proof.
  intros He Hb Hvt. rewrite (get_form_setting_some _ _ _ He Hb).
  by apply gen_field_unrecognized.
Qed.

Lemma get_form_setting_no_choices s d F :
  extra s = Some d → select_like (value_type s) = true →
  d !! "choices" = None →
  get_form_setting call accepts s F = Raise KeyError.
Proof.
  intros He Hvt Hc.
  rewrite (get_form_setting_some _ _ _ He (bounds_accepted_select_like _ _ Hvt)).
  destruct (select_like_cases _ Hvt) as [Hk|Hk].
  - rewrite (gen_field_select _ _ _ Hk), (gen_coerce_some _ _ He),
      (gen_choices_missing _ _ He Hc). done.
  - rewrite (gen_field_selectmultiple _ _ _ Hk), (gen_coerce_some _ _ He),
      (gen_choices_missing _ _ He Hc). done.
Qed.

(** A setting that the loop body accepts: its [extra] is a mapping, the
    bounds it gives to [Length] pass and, for the select kinds, it holds a
    [choices] producer whose call returns. *)
Definition synthesizable s : Prop :=
  ∃ d, extra s = Some d ∧
       bounds_accepted (value_type s) d = true ∧
       (select_like (value_type s) = true →
        ∃ p c, d !! "choices" = Some p ∧ call p = Ok c).

(** What one iteration does to the class when it does not raise. *)
Definition sets_field s F F' : Prop :=
  ∃ f, F' = <[key s := f]> F ∧
       field_label f = name s ∧ field_description f = description s.

Lemma get_form_setting_recognized s F :
  synthesizable s → recognized (value_type s) = true →
  ∃ F', get_form_setting call accepts s F = Ok F' ∧ sets_field s F F'.
Proof.
  intros (d & He & Hb & Hsel) Hvt. rewrite (get_form_setting_some _ _ _ He Hb).
  destruct (recognized_cases _ Hvt) as [Hk|[Hk|[Hk|[Hk|[Hk|Hk]]]]].
  - rewrite (gen_field_integer _ _ _ Hk). eexists; split; [done|].
    by eexists.
  - rewrite (gen_field_float _ _ _ Hk). eexists; split; [done|].
    by eexists.
  - rewrite (gen_field_string _ _ _ Hk). eexists; split; [done|].
    by eexists.
  - rewrite (gen_field_boolean _ _ _ Hk). eexists; split; [done|].
    by eexists.
  - destruct Hsel as (p & c & Hp & Hc); [by rewrite Hk|].
    rewrite (gen_field_select _ _ _ Hk), (gen_coerce_some _ _ He),
      (gen_choices_some _ _ _ He Hp), Hc.
    eexists; split; [done|]. by eexists.
  - destruct Hsel as (p & c & Hp & Hc); [by rewrite Hk|].
    rewrite (gen_field_selectmultiple _ _ _ Hk), (gen_coerce_some _ _ He),
      (gen_choices_some _ _ _ He Hp), Hc.
    eexists; split; [done|]. by eexists.
Qed.

Lemma get_form_setting_ok s F :
  synthesizable s → ∃ F', get_form_setting call accepts s F = Ok F'.
Proof.
  intros Hs. destruct (recognized (value_type s)) eqn:Hvt.
  - destruct (get_form_setting_recognized s F Hs Hvt) as (F' & ? & _); eauto.
  - destruct Hs as (d & He & Hb & _). exists F.
    by apply (get_form_setting_unrecognized _ d).
Qed.

(** ** The loop *)

Lemma get_form_loop_app l1 l2 F :
  get_form_loop call accepts (l1 ++ l2) F =
    (F' ← get_form_loop call accepts l1 F; get_form_loop call accepts l2 F').
Proof.
  revert F. induction l1 as [|s l1 IH]; intros F; simpl; [done|].
  destruct (get_form_setting call accepts s F) as [F1|e]; simpl;
    [apply IH | done].
Qed.

Lemma get_form_loop_raises_at pre s post F F1 e :
  get_form_loop call accepts pre F = Ok F1 →
  get_form_setting call accepts s F1 = Raise e →
  get_form_loop call accepts (pre ++ s :: post) F = Raise e.
Proof.
  intros Hpre Hs. rewrite get_form_loop_app, Hpre. simpl. by rewrite Hs.
Qed.

Lemma get_form_loop_raises l s e F :
  s ∈ l → (∀ F1, get_form_setting call accepts s F1 = Raise e) →
  ∃ e', get_form_loop call accepts l F = Raise e'.
Proof.
  intros Hin Hs. apply list_elem_of_split in Hin as (pre & post & ->).
  destruct (get_form_loop call accepts pre F) as [F1|e1] eqn:Hpre.
  - exists e. by apply (get_form_loop_raises_at _ _ _ _ F1).
  - exists e1. by rewrite get_form_loop_app, Hpre.
Qed.

Lemma get_form_loop_skip pre s post F :
  (∀ F1, get_form_setting call accepts s F1 = Ok F1) →
  get_form_loop call accepts (pre ++ s :: post) F
  = get_form_loop call accepts (pre ++ post) F.
Proof.
  intros Hs. rewrite !get_form_loop_app.
  destruct (get_form_loop call accepts pre F) as [F1|e]; simpl; [|done].
  by rewrite Hs.
Qed.

(** Reading an iteration backwards: if it returned, what it did. *)
Lemma get_form_setting_inv s F F' :
  get_form_setting call accepts s F = Ok F' →
  if recognized (value_type s) then sets_field s F F' else F' = F.
Proof.
  intros H. destruct (extra s) as [d|] eqn:He;
    [|by rewrite (get_form_setting_none _ _ He) in H].
  rewrite (get_form_setting_mapping _ _ _ He) in H.
  destruct (bounds_accepted (value_type s) d) eqn:Hb; [|done].
  destruct (recognized (value_type s)) eqn:Hvt.
  - destruct (recognized_cases _ Hvt) as [Hk|[Hk|[Hk|[Hk|[Hk|Hk]]]]].
    + rewrite (gen_field_integer _ _ _ Hk) in H. injection H as <-.
      by eexists.
    + rewrite (gen_field_float _ _ _ Hk) in H. injection H as <-.
      by eexists.
    + rewrite (gen_field_string _ _ _ Hk) in H. injection H as <-.
      by eexists.
    + rewrite (gen_field_boolean _ _ _ Hk) in H. injection H as <-.
      by eexists.
    + rewrite (gen_field_select _ _ _ Hk), (gen_coerce_some _ _ He) in H.
      simpl in H. destruct (gen_choices call s); [|done].
      injection H as <-. by eexists.
    + rewrite (gen_field_selectmultiple _ _ _ Hk),
        (gen_coerce_some _ _ He) in H.
      simpl in H. destruct (gen_choices call s); [|done].
      injection H as <-. by eexists.
  - rewrite (gen_field_unrecognized _ _ _ Hvt) in H. by injection H as <-.
Qed.

(** The attributes of other names are left alone. *)
Lemma get_form_loop_frame l F F' k :
  get_form_loop call accepts l F = Ok F' →
  (∀ s, s ∈ l → key s ≠ k) →
  F' !! k = F !! k.
Proof.
  revert F. induction l as [|s l IH]; intros F H Hk; simpl in H.
  { by injection H as <-. }
  apply bind_inv_ok in H as (F1 & Hs & Hl).
  rewrite (IH F1 Hl) by (intros s' Hs'; apply Hk; by right).
  apply get_form_setting_inv in Hs.
  destruct (recognized (value_type s)); [|by subst].
  destruct Hs as (f & -> & _). apply lookup_insert_ne, Hk. by left.
Qed.

(** The loop over settings that the body accepts, their keys distinct. *)
Lemma get_form_loop_fields l F :
  Forall synthesizable l →
  NoDup (key <$> l) →
  ∃ F', get_form_loop call accepts l F = Ok F' ∧
    (∀ s, s ∈ l → recognized (value_type s) = true →
       ∃ f, F' !! key s = Some f ∧
            field_label f = name s ∧ field_description f = description s) ∧
    (∀ k, is_Some (F' !! k) ↔
          is_Some (F !! k) ∨
          ∃ s, s ∈ l ∧ recognized (value_type s) = true ∧ key s = k).
Proof.
  revert F. induction l as [|s l IH]; intros F Hall Hnd.
  { exists F. split; [done|]. split.
    - intros s Hs. by apply elem_of_nil in Hs.
    - intros k. split; [by left|]. intros [?|(s & Hs & _)]; [done|].
      by apply elem_of_nil in Hs. }
  apply Forall_cons in Hall as [Hs Hall].
  rewrite fmap_cons in Hnd. apply NoDup_cons in Hnd as [Hfresh Hnd].
  destruct (get_form_setting_ok s F Hs) as (F1 & HF1).
  destruct (IH F1 Hall Hnd) as (F' & HF' & Hfields & Hdom).
  assert (F' !! key s = F1 !! key s) as Hkeep.
  { apply (get_form_loop_frame l); [done|]. intros s' Hs' Heq.
    apply Hfresh. rewrite <- Heq. by apply list_elem_of_fmap_2. }
  pose proof (get_form_setting_inv _ _ _ HF1) as Hinv.
  exists F'. split; [simpl; by rewrite HF1|]. split.
  - intros s' Hs' Hvt. apply elem_of_cons in Hs' as [->|Hs'];
      [|by apply Hfields].
    rewrite Hvt in Hinv. destruct Hinv as (f & -> & Hl & Hd).
    exists f. by rewrite Hkeep, lookup_insert_eq.
  - intros k. rewrite Hdom. split.
    + intros [HF1k|(s' & Hs' & Hvt & Hk)];
        [|right; exists s'; split; [by right|done]].
      destruct (recognized (value_type s)) eqn:Hvt; [|subst; by left].
      destruct Hinv as (f & -> & _).
      destruct (decide (key s = k)) as [Heq|Hne].
      * right. exists s. split; [by left|done].
      * left. by rewrite lookup_insert_ne in HF1k.
    + intros [HFk|(s' & Hs' & Hvt & Hk)].
      * left. destruct (recognized (value_type s)); [|by subst].
        destruct Hinv as (f & -> & _).
        destruct (decide (key s = k)) as [<-|Hne];
          [by rewrite lookup_insert_eq | by rewrite lookup_insert_ne].
      * apply elem_of_cons in Hs' as [->|Hs'];
          [|right; by exists s'].
        left. rewrite Hvt in Hinv. destruct Hinv as (f & -> & _).
        subst k. by rewrite lookup_insert_eq.
Qed.

(** In a form that was returned, what stands under the key of a setting is
    what the iteration of that setting left there, keys being distinct. *)
Lemma get_form_lookup_at db group form s :
  get_form call accepts db group = Ok form →
  NoDup (key <$> group_settings db group) →
  s ∈ group_settings db group →
  ∃ F1 F2, get_form_setting call accepts s F1 = Ok F2 ∧
           form !! key s = F2 !! key s.
Proof.
  unfold get_form. intros Hform Hnd Hin.
  apply list_elem_of_split in Hin as (pre & post & Hsplit).
  rewrite Hsplit in Hform, Hnd. rewrite get_form_loop_app in Hform.
  apply bind_inv_ok in Hform as (F1 & _ & Hrest). simpl in Hrest.
  apply bind_inv_ok in Hrest as (F2 & Hs & Hpost).
  exists F1, F2. split; [done|].
  apply (get_form_loop_frame post); [done|]. intros s' Hs' Heq.
  rewrite fmap_app, fmap_cons in Hnd.
  apply NoDup_app in Hnd as (_ & _ & Hnd).
  apply NoDup_cons in Hnd as [Hfresh _]. apply Hfresh.
  rewrite <- Heq. by apply list_elem_of_fmap_2.
Qed.

Lemma get_form_raises_in_group db group s e :
  s ∈ group_settings db group →
  (∀ F, get_form_setting call accepts s F = Raise e) →
  (∃ e', get_form call accepts db group = Raise e') ∧
  (∀ pre post F,
     group_settings db group = pre ++ s :: post →
     get_form_loop call accepts pre ∅ = Ok F →
     get_form call accepts db group = Raise e).
Proof.
  intros Hin Hs. split.
  - by apply (get_form_loop_raises _ s e).
  - intros pre post F Hsplit Hpre. unfold get_form. rewrite Hsplit.
    by apply (get_form_loop_raises_at _ _ _ _ F).
Qed.



(** C5, amended. A setting whose [extra] is a mapping with bounds that
    [Length] accepts (it is given them when the kind occurs in the word
    "string") and whose kind is not one of the six recognized ones leaves
    the class as it is and raises nothing; the synthesis of its group is the
    synthesis of the group without it. *)
Theorem get_form_unrecognized_kind db group pre s post d :
  group_settings db group = pre ++ s :: post →
  extra s = Some d →
  bounds_accepted (value_type s) d = true →
  recognized (value_type s) = false →
  (∀ F, get_form_setting call accepts s F = Ok F) ∧
  get_form call accepts db group = get_form_loop call accepts (pre ++ post) ∅.
Proof.
  intros Hsplit He Hb Hvt.
  assert (∀ F, get_form_setting call accepts s F = Ok F) as Hs
    by (intros F; by apply (get_form_setting_unrecognized _ d)).
  split; [done|]. unfold get_form. rewrite Hsplit.
  by apply get_form_loop_skip.
Qed.

(** C2, amended. In a group whose settings all have a mapping as [extra]
    (with bounds that [Length] accepts where it is given them and, for the
    select kinds, a "choices" producer whose call returns) and pairwise
    distinct keys, synthesis returns a form; each setting of a recognized
    kind sets exactly one attribute, named by its key, and the form holds
    under that key a field whose label and description are the setting's
    name and description; the form has no field besides these. *)
Theorem get_form_one_field_per_setting db group :
  Forall synthesizable (group_settings db group) →
  NoDup (key <$> group_settings db group) →
  ∃ form, get_form call accepts db group = Ok form ∧
    (∀ s, s ∈ group_settings db group → recognized (value_type s) = true →
       (∀ F, ∃ F', get_form_setting call accepts s F = Ok F' ∧
                    sets_field s F F') ∧
       ∃ f, form !! key s = Some f ∧
            field_label f = name s ∧ field_description f = description s) ∧
    (∀ k, is_Some (form !! k) ↔
          ∃ s, s ∈ group_settings db group ∧
               recognized (value_type s) = true ∧ key s = k).
Proof.
  intros Hall Hnd.
  destruct (get_form_loop_fields _ ∅ Hall Hnd) as (form & Hform & Hf & Hdom).
  exists form. split; [done|]. split.
  - intros s Hs Hvt. split; [|by apply Hf].
    intros F. apply get_form_setting_recognized; [|done].
    by apply (proj1 (Forall_forall _ _) Hall).
  - intros k. rewrite Hdom. split; [|by right].
    intros [HF|?]; [|done]. rewrite lookup_empty in HF. by destruct HF.
Qed.

(** ** Bounds *)

Lemma min_validators_numeric vt d :
  in_tuple vt ["integer"; "float"] = true →
  min_validators vt d =
    match d !! "min" with Some m => [NumberRange (Some m) None] | None => [] end.
Proof.
  intros Hvt. unfold min_validators, bound_validators. by rewrite Hvt.
Qed.

Lemma max_validators_numeric vt d :
  in_tuple vt ["integer"; "float"] = true →
  max_validators vt d =
    match d !! "max" with Some m => [NumberRange None (Some m)] | None => [] end.
Proof.
  intros Hvt. unfold max_validators, bound_validators. by rewrite Hvt.
Qed.

Lemma min_validators_string d :
  min_validators "string" d =
    match d !! "min" with Some m => [Length (Some m) None] | None => [] end.
Proof. reflexivity. Qed.

Lemma max_validators_string d :
  max_validators "string" d =
    match d !! "max" with Some m => [Length None (Some m)] | None => [] end.
Proof. reflexivity. Qed.

Lemma validators_select_like vt d :
  select_like vt = true → min_validators vt d = [] ∧ max_validators vt d = [].
Proof.
  intros Hvt. unfold min_validators, max_validators, bound_validators.
  destruct (select_like_cases _ Hvt) as [-> | ->];
    by destruct (d !! "min"), (d !! "max").
Qed.

(** The validators of a numeric field: a range for each bound present,
    and no length. *)
Definition number_bounds d (f : field pyobj) : Prop :=
  (∀ m, d !! "min" = Some m → NumberRange (Some m) None ∈ field_validators f) ∧
  (∀ m, d !! "max" = Some m → NumberRange None (Some m) ∈ field_validators f) ∧
  (∀ lo hi, Length lo hi ∉ field_validators f).

(** The validators of a text field: a length for each bound present, and
    no range. *)
Definition length_bounds d (f : field pyobj) : Prop :=
  (∀ m, d !! "min" = Some m → Length (Some m) None ∈ field_validators f) ∧
  (∀ m, d !! "max" = Some m → Length None (Some m) ∈ field_validators f) ∧
  (∀ lo hi, NumberRange lo hi ∉ field_validators f).

Lemma number_bounds_intro vt d (f : field pyobj) :
  in_tuple vt ["integer"; "float"] = true →
  field_validators f = min_validators vt d ++ max_validators vt d →
  number_bounds d f.
Proof.
  intros Hvt Hf. unfold number_bounds. rewrite Hf.
  rewrite (min_validators_numeric _ _ Hvt), (max_validators_numeric _ _ Hvt).
  repeat split.
  - intros m ->. apply elem_of_app. left. by left.
  - intros m ->. apply elem_of_app. right. by left.
  - intros lo hi Hin. apply elem_of_app in Hin as [Hin|Hin];
      [destruct (d !! "min") | destruct (d !! "max")];
      by repeat (apply elem_of_cons in Hin as [?|Hin]; [done|]);
      apply elem_of_nil in Hin.
Qed.

Lemma length_bounds_intro d (f : field pyobj) :
  field_validators f = min_validators "string" d ++ max_validators "string" d →
  length_bounds d f.
Proof.
  intros Hf. unfold length_bounds.
  rewrite Hf, min_validators_string, max_validators_string.
  repeat split.
  - intros m ->. apply elem_of_app. left. by left.
  - intros m ->. apply elem_of_app. right. by left.
  - intros lo hi Hin. apply elem_of_app in Hin as [Hin|Hin];
      [destruct (d !! "min") | destruct (d !! "max")];
      by repeat (apply elem_of_cons in Hin as [?|Hin]; [done|]);
      apply elem_of_nil in Hin.
Qed.


End FormProperties.

(** ** The form claims on the sample data *)





Lemma get_form_unrecognized_kind_witness :
  get_form Sample.call Sample.length_accepts
           (Sample.db_with [Sample.accent; Sample.theme]) Sample.appearance
  = get_form_loop Sample.call Sample.length_accepts [Sample.theme] ∅.
Proof.
  apply (get_form_unrecognized_kind Sample.call Sample.length_accepts
           (Sample.db_with [Sample.accent; Sample.theme]) Sample.appearance
           [] Sample.accent [Sample.theme] {[ "min" := Sample.Int 4 ]});
    reflexivity.
Defined.

(** The claim C5 as worded fails for a setting of an unknown kind whose
    [extra] is unset: the membership test raises. *)
Lemma unrecognized_kind_unset_extra_raises :
  ¬ (∀ (db : database Sample.obj) group s,
       s ∈ group_settings db group →
       recognized (value_type s) = false →
       ∃ form, get_form Sample.call Sample.length_accepts db group = Ok form).
Proof.
  intros H.
  destruct (H (Sample.db_with [Sample.accent_unset]) Sample.appearance
              Sample.accent_unset) as (form & Hform).
  - vm_compute. apply list_elem_of_here.
  - reflexivity.
  - vm_compute in Hform. discriminate Hform.
Qed.

(** It also fails for the kind "ring", which is no kind but occurs in the
    word "string": the code gives its bound to [Length], which refuses
    [min=-1]. *)
Lemma unrecognized_kind_refused_bound_raises :
  recognized (value_type Sample.ring) = false ∧
  get_form Sample.call Sample.length_accepts (Sample.db_with [Sample.ring])
           Sample.general = Raise AssertionError.
Proof. split; reflexivity. Qed.

Lemma get_form_one_field_per_setting_witness :
  ∃ form,
    get_form Sample.call Sample.length_accepts Sample.db Sample.general
    = Ok form ∧
    ∃ f, form !! "per_page" = Some f ∧
         field_label f = "Per page" ∧ field_description f = "Items per page".
Proof.
  destruct (get_form_one_field_per_setting Sample.call Sample.length_accepts
              Sample.db Sample.general)
    as (form & Hform & Hfields & _).
  - change (group_settings Sample.db Sample.general)
      with [Sample.site_name; Sample.per_page].
    repeat apply Forall_cons_2; [| |apply Forall_nil_2];
      (eexists; split; [reflexivity|]; split; [reflexivity|];
       intros Hsel; vm_compute in Hsel; discriminate Hsel).
  - change (key <$> group_settings Sample.db Sample.general)
      with ["site_name"; "per_page"].
    apply (bool_decide_unpack _). vm_compute. exact I.
  - exists form. split; [exact Hform|].
    apply (Hfields Sample.per_page).
    + vm_compute. apply list_elem_of_further, list_elem_of_here.
    + reflexivity.
Defined.

(** The claim C2 as worded fails for a boolean setting whose [extra] is
    unset: its group gets no form at all. *)
Lemma recognized_kind_without_field :
  ¬ (∀ (db : database Sample.obj) group s,
       s ∈ group_settings db group →
       recognized (value_type s) = true →
       ∃ form f, get_form Sample.call Sample.length_accepts db group = Ok form ∧
                 form !! key s = Some f ∧
                 field_label f = name s ∧
                 field_description f = description s).
Proof.
  intros H.
  destruct (H (Sample.db_with [Sample.registration]) Sample.general
              Sample.registration) as (form & f & Hform & _).
  - vm_compute. apply list_elem_of_here.
  - reflexivity.
  - vm_compute in Hform. discriminate Hform.
Qed.



Section RegistryProperties.

Context {pyobj : Type}.
Variable py_eq : pyobj → pyobj → bool.
Variable store : pyobj → result unit.
Implicit Types (r s : Setting pyobj) (db : database pyobj)
  (acc upd m : gmap string pyobj) (items : list (string * pyobj)).

(** ** Queries *)

Lemma query_setting_Some db k s :
  query_setting db k = Some s → s ∈ settings db ∧ key s = k.
Proof.
  intros H. apply find_some in H as [Hin Hk].
  split; [by apply list_elem_of_In | by apply String.eqb_eq].
Qed.

Lemma query_setting_None db k :
  query_setting db k = None → ∀ s, s ∈ settings db → key s ≠ k.
Proof.
  intros H s Hs Hk. apply list_elem_of_In in Hs.
  pose proof (find_none _ _ H s Hs) as Hf. simpl in Hf.
  apply String.eqb_neq in Hf. done.
Qed.

Lemma query_setting_exists db k s :
  s ∈ settings db → key s = k → ∃ s', query_setting db k = Some s'.
Proof.
  intros Hs Hk. destruct (query_setting db k) as [s'|] eqn:Hq; [by exists s'|].
  by destruct (query_setting_None _ _ Hq s Hs).
Qed.

Lemma group_first_or_404_found db g grp :
  grp ∈ groups db → group_key grp = g →
  ∃ grp', group_first_or_404 db g = Ok grp' ∧ group_key grp' = g.
Proof.
  intros Hin Hk. unfold group_first_or_404.
  destruct (find _ (groups db)) as [grp'|] eqn:Hf.
  - exists grp'. split; [done|]. apply find_some in Hf as [_ Hf].
    by apply String.eqb_eq.
  - apply list_elem_of_In in Hin.
    pose proof (find_none _ _ Hf grp Hin) as Hne. simpl in Hne.
    apply String.eqb_neq in Hne. done.
Qed.

Lemma group_first_or_404_missing db g :
  (∀ grp, grp ∈ groups db → group_key grp ≠ g) →
  group_first_or_404 db g = Raise NotFound.
Proof.
  intros Hno. unfold group_first_or_404.
  destruct (find _ (groups db)) as [grp'|] eqn:Hf; [|done].
  apply find_some in Hf as [Hin Hf]. apply String.eqb_eq in Hf.
  apply list_elem_of_In in Hin. by destruct (Hno grp' Hin).
Qed.

Lemma group_settings_of_key db grp g :
  group_key grp = g →
  group_settings db grp = filter (λ s, settingsgroup s = g) (settings db).
Proof. by intros <-. Qed.

(** ** Rows under [update] *)

(** Two rows that differ at most in the column [value]. *)
Definition same_columns r r' : Prop := set_value r (value r') = r'.

Lemma set_value_same r : set_value r (value r) = r.
Proof. by destruct r. Qed.

Lemma same_columns_refl r : same_columns r r.
Proof. apply set_value_same. Qed.

Lemma same_columns_trans r1 r2 r3 :
  same_columns r1 r2 → same_columns r2 r3 → same_columns r1 r3.
Proof. unfold same_columns. by intros <- <-. Qed.

Lemma same_columns_key r r' : same_columns r r' → key r' = key r.
Proof. by intros <-. Qed.

Lemma same_columns_settingsgroup r r' :
  same_columns r r' → settingsgroup r' = settingsgroup r.
Proof. by intros <-. Qed.

Lemma Forall2_compose {A} (P Q : A → A → Prop) (l1 l2 l3 : list A) :
  Forall2 P l1 l2 → Forall2 Q l2 l3 →
  Forall2 (λ x z, ∃ y, P x y ∧ Q y z) l1 l3.
Proof.
  intros H. revert l3. induction H as [|x y l1 l2 Hxy _ IH]; intros l3 H3.
  - apply Forall2_nil_inv_l in H3 as ->. constructor.
  - apply Forall2_cons_inv_l in H3 as (z & l3' & Hyz & H3 & ->).
    constructor; [by exists y | by apply IH].
Qed.

(** What the entries [items] may have done to a row: only its value can
    have changed, and not even that when no entry names its key. *)
Definition touched_by items r r' : Prop :=
  same_columns r r' ∧
  ((∀ k v, (k, v) ∈ items → key r ≠ str_lower k) → r' = r).

Lemma commit_rows db s v :
  settings (commit (set_value s v) db)
  = (λ r, if String.eqb (key r) (key s) then set_value r v else r)
      <$> settings db.
Proof. reflexivity. Qed.

(** One entry that went through: the setting was found, the dictionary got
    the value under the upper-cased key, and the row was written unless the
    value compares equal to the stored one. *)
Lemma update_entry_inv k v db upd db' upd' :
  update_entry py_eq store k v db upd = Ok (db', upd') →
  ∃ s, query_setting db (str_lower k) = Some s ∧
       upd' = <[str_upper (str_lower k) := v]> upd ∧
       ((py_eq v (value s) = true ∧ db' = db) ∨
        (py_eq v (value s) = false ∧ store v = Ok tt ∧
         db' = commit (set_value s v) db)).
Proof.
  unfold update_entry, session_commit.
  destruct (query_setting db (str_lower k)) as [s|] eqn:Hq; [|done].
  pose proof (query_setting_Some _ _ _ Hq) as [_ Hk]. simpl.
  destruct (py_eq v (value s)) eqn:Heq; simpl.
  - intros H. injection H as <- <-. exists s. rewrite Hk. by eauto.
  - destruct (store v) as [[]|e] eqn:Hst; simpl; [|done].
    intros H. injection H as <- <-. exists s. rewrite Hk. by eauto 10.
Qed.

(** One entry that raised: the key is unknown, or the value could not be
    written. *)
Lemma update_entry_raise k v db upd e :
  update_entry py_eq store k v db upd = Raise e →
  (e = AttributeError ∧ query_setting db (str_lower k) = None) ∨
  (∃ s, query_setting db (str_lower k) = Some s ∧
        py_eq v (value s) = false ∧ store v = Raise e).
Proof.
  unfold update_entry, session_commit.
  destruct (query_setting db (str_lower k)) as [s|] eqn:Hq.
  - simpl. destruct (py_eq v (value s)) eqn:Heq; simpl; [done|].
    destruct (store v) as [[]|e'] eqn:Hst; simpl; [done|].
    intros H. injection H as <-. right. by exists s.
  - intros H. injection H as <-. by left.
Qed.

Lemma update_entry_rows k v db upd db' upd' :
  update_entry py_eq store k v db upd = Ok (db', upd') →
  groups db' = groups db ∧
  Forall2 (touched_by [(k, v)]) (settings db) (settings db').
Proof.
  intros H. apply update_entry_inv in H as (s & Hq & _ & [[_ ->]|(_ & _ & ->)]).
  - split; [done|]. apply Forall_Forall2_diag, Forall_forall.
    intros r _. split; [apply same_columns_refl | done].
  - apply query_setting_Some in Hq as [_ Hk]. split; [done|].
    rewrite commit_rows. apply Forall2_fmap_r, Forall_Forall2_diag, Forall_forall.
    intros r _. unfold compose.
    destruct (String.eqb_spec (key r) (key s)) as [Heq|Hne].
    + split; [reflexivity|]. intros Hno. destruct (Hno k v); [by left|].
      by rewrite Heq.
    + split; [apply same_columns_refl | done].
Qed.

(** Whatever the outcome of the loop. *)
Lemma update_loop_rows items db acc :
  groups (update_loop py_eq store items db acc).1 = groups db ∧
  Forall2 (touched_by items) (settings db)
          (settings (update_loop py_eq store items db acc).1).
Proof.
  revert db acc. induction items as [|[k v] items IH]; intros db acc; simpl.
  { split; [done|]. apply Forall_Forall2_diag, Forall_forall.
    intros r _. split; [apply same_columns_refl | done]. }
  destruct (update_entry py_eq store k v db acc) as [[db1 upd1]|e] eqn:He.
  - apply update_entry_rows in He as [Hg1 Hr1].
    destruct (IH db1 upd1) as [Hg Hr]. split; [by rewrite Hg|].
    eapply Forall2_impl; [apply (Forall2_compose _ _ _ _ _ Hr1 Hr)|].
    intros r r' (r1 & [Hc1 Hu1] & [Hc Hu]). split.
    + by apply (same_columns_trans _ r1).
    + intros Hno. rewrite Hu, Hu1; [done| |].
      * intros k' v' Hin. apply list_elem_of_singleton in Hin.
        injection Hin as -> ->. apply (Hno k v). by left.
      * intros k' v' Hin. rewrite (same_columns_key _ _ Hc1).
        apply (Hno k' v'). by right.
  - simpl. split; [done|]. apply Forall_Forall2_diag, Forall_forall.
    intros r _. split; [apply same_columns_refl | done].
Qed.

Lemma touched_by_keys items (l l' : list (Setting pyobj)) :
  Forall2 (touched_by items) l l' → key <$> l' = key <$> l.
Proof.
  induction 1 as [|r r' l l' [Hc _] _ IH]; [done|].
  by rewrite !fmap_cons, IH, (same_columns_key _ _ Hc).
Qed.

Lemma same_keys_exists (l l' : list (Setting pyobj)) s k :
  key <$> l' = key <$> l → s ∈ l → key s = k → ∃ s', s' ∈ l' ∧ key s' = k.
Proof.
  intros Hkeys Hs Hk.
  assert (k ∈ key <$> l') as Hin
    by (rewrite Hkeys, <- Hk; by apply list_elem_of_fmap_2).
  apply list_elem_of_fmap in Hin as (s' & -> & Hs'). by exists s'.
Qed.

Lemma Forall2_elem_of_r {A B} (P : A → B → Prop) l l' y :
  Forall2 P l l' → y ∈ l' → ∃ x, x ∈ l ∧ P x y.
Proof.
  induction 1 as [|x y' l l' Hxy _ IH]; intros Hy.
  { by apply elem_of_nil in Hy. }
  apply elem_of_cons in Hy as [->|Hy].
  - exists x. split; [by left|done].
  - destruct (IH Hy) as (x' & Hx' & HP). exists x'. split; [by right|done].
Qed.

(** ** [updated_settings] *)

(** The dictionary [updated_settings] after all entries. *)
Definition noted items acc : gmap string pyobj :=
  fold_left (λ acc '(k, v), <[str_upper (str_lower k) := v]> acc) items acc.

Lemma noted_frame items acc K :
  (∀ k v, (k, v) ∈ items → K ≠ str_upper (str_lower k)) →
  noted items acc !! K = acc !! K.
Proof.
  revert acc. induction items as [|[k v] items IH]; intros acc Hno; simpl;
    [done|].
  rewrite IH by (intros k' v' Hin; apply (Hno k' v'); by right).
  apply lookup_insert_ne. intros Heq. by apply (Hno k v); [left|].
Qed.

Lemma noted_changed items acc K :
  noted items acc !! K ≠ acc !! K →
  ∃ k v, (k, v) ∈ items ∧ K = str_upper (str_lower k).
Proof.
  revert acc. induction items as [|[k v] items IH]; intros acc Hne; simpl in Hne;
    [done|].
  destruct (decide (K = str_upper (str_lower k))) as [->|Hk].
  { exists k, v. split; [by left|done]. }
  destruct (IH (<[str_upper (str_lower k) := v]> acc)) as (k' & v' & Hin & HK).
  - by rewrite (lookup_insert_ne acc _ _ v (not_eq_sym Hk)).
  - exists k', v'. split; [by right|done].
Qed.

(** The last entry for a key of the dictionary decides its value. *)
Lemma noted_last pre k v post acc :
  (∀ k' v', (k', v') ∈ post →
            str_upper (str_lower k') ≠ str_upper (str_lower k)) →
  noted (pre ++ (k, v) :: post) acc !! str_upper (str_lower k) = Some v.
Proof.
  intros Hlast. unfold noted. rewrite fold_left_app. simpl.
  match goal with |- fold_left ?f post ?a !! _ = _ =>
    change (fold_left f post a) with (noted post a) end.
  rewrite noted_frame; [apply lookup_insert_eq|].
  intros k' v' Hin Heq. by apply (Hlast k' v' Hin).
Qed.

(** ** The loop of [update] *)

Lemma update_loop_noted items db acc db' upd :
  update_loop py_eq store items db acc = (db', Ok upd) →
  upd = noted items acc.
Proof.
  revert db acc. induction items as [|[k v] items IH]; intros db acc H;
    simpl in H.
  { by injection H as _ <-. }
  destruct (update_entry py_eq store k v db acc) as [[db1 upd1]|e] eqn:He;
    [|done].
  apply update_entry_inv in He as (_ & _ & -> & _). by apply IH in H.
Qed.

Lemma update_loop_found items db acc db' upd :
  update_loop py_eq store items db acc = (db', Ok upd) →
  ∀ k v, (k, v) ∈ items → ∃ s, s ∈ settings db ∧ key s = str_lower k.
Proof.
  revert db acc. induction items as [|[k0 v0] items IH]; intros db acc H k v Hin.
  { by apply elem_of_nil in Hin. }
  simpl in H.
  destruct (update_entry py_eq store k0 v0 db acc) as [[db1 upd1]|e] eqn:He;
    [|done].
  apply elem_of_cons in Hin as [Heq|Hin].
  - injection Heq as -> ->. apply update_entry_inv in He as (s & Hq & _).
    exists s. by apply query_setting_Some.
  - destruct (IH _ _ H k v Hin) as (s1 & Hs1 & Hk1).
    apply update_entry_rows in He as [_ Hrows].
    apply touched_by_keys in Hrows.
    by apply (same_keys_exists (settings db1) (settings db) s1).
Qed.

Lemma update_loop_app items1 items2 db acc :
  update_loop py_eq store (items1 ++ items2) db acc =
    match update_loop py_eq store items1 db acc with
    | (db1, Ok acc1) => update_loop py_eq store items2 db1 acc1
    | (db1, Raise e) => (db1, Raise e)
    end.
Proof.
  revert db acc. induction items1 as [|[k v] items1 IH]; intros db acc; simpl;
    [done|].
  destruct (update_entry py_eq store k v db acc) as [[db1 upd1]|e];
    [apply IH | done].
Qed.

Lemma update_entry_lower k v db acc :
  update_entry py_eq store k v db acc
  = update_entry py_eq store (str_lower k) v db acc.
Proof. unfold update_entry. by rewrite str_lower_idemp. Qed.

Lemma update_loop_lower items db acc :
  update_loop py_eq store items db acc
  = update_loop py_eq store (prod_map str_lower id <$> items) db acc.
Proof.
  revert db acc. induction items as [|[k v] items IH]; intros db acc; simpl;
    [done|].
  rewrite <- update_entry_lower.
  destruct (update_entry py_eq store k v db acc) as [[db1 upd1]|e];
    [apply IH | done].
Qed.

Lemma update_unfold db items app :
  update py_eq store db items app =
    ((update_loop py_eq store items db ∅).1,
     match (update_loop py_eq store items db ∅).2 with
     | Ok upd => match app with
                 | Some a => Some (config_update a upd)
                 | None => None
                 end
     | Raise _ => app
     end,
     match (update_loop py_eq store items db ∅).2 with
     | Ok _ => Ok tt
     | Raise e => Raise e
     end).
Proof.
  unfold update.
  by destruct (update_loop py_eq store items db ∅) as [db' [upd|e]].
Qed.

(** ** [as_dict] *)

Definition cased (upper : bool) (k : string) : string :=
  if upper then str_upper k else k.

(** The rows that [as_dict] iterates over once the group has been found. *)
Definition selected db (from_group : option string) : list (Setting pyobj) :=
  match from_group with
  | Some g => filter (λ s, settingsgroup s = g) (settings db)
  | None => settings db
  end.

Lemma as_dict_loop_cons upper r rows acc :
  as_dict_loop upper (r :: rows) acc
  = as_dict_loop upper rows (<[cased upper (key r) := value r]> acc).
Proof. unfold as_dict_loop, cased. simpl. by destruct upper. Qed.

Lemma as_dict_loop_sound upper rows acc K V :
  as_dict_loop upper rows acc !! K = Some V →
  acc !! K = Some V ∨
  ∃ s, s ∈ rows ∧ cased upper (key s) = K ∧ value s = V.
Proof.
  revert acc. induction rows as [|r rows IH]; intros acc H; [by left|].
  rewrite as_dict_loop_cons in H. apply IH in H as [H|(s & Hs & HK & HV)].
  - destruct (decide (cased upper (key r) = K)) as [Heq|Hne].
    + rewrite Heq, lookup_insert_eq in H. injection H as <-.
      right. exists r. split; [by left|done].
    + rewrite lookup_insert_ne in H by done. by left.
  - right. exists s. split; [by right|done].
Qed.

Lemma as_dict_loop_dom upper rows acc K :
  is_Some (as_dict_loop upper rows acc !! K) ↔
  is_Some (acc !! K) ∨ ∃ s, s ∈ rows ∧ cased upper (key s) = K.
Proof.
  revert acc. induction rows as [|r rows IH]; intros acc.
  { split; [by left|]. intros [?|(s & Hs & _)]; [done|].
    by apply elem_of_nil in Hs. }
  rewrite as_dict_loop_cons, IH. split.
  - intros [H|(s & Hs & HK)]; [|right; exists s; split; [by right|done]].
    destruct (decide (cased upper (key r) = K)) as [Heq|Hne].
    + right. exists r. split; [by left|done].
    + left. by rewrite lookup_insert_ne in H.
  - intros [H|(s & Hs & HK)].
    + left. destruct (decide (cased upper (key r) = K)) as [Heq|Hne];
        [by rewrite Heq, lookup_insert_eq | by rewrite lookup_insert_ne].
    + apply elem_of_cons in Hs as [->|Hs]; [|right; by exists s].
      left. by rewrite HK, lookup_insert_eq.
Qed.

(** When all rows of a key agree on the value, that value is returned. *)
Lemma as_dict_loop_agree upper rows acc K V :
  acc !! K = Some V ∨ (∃ s, s ∈ rows ∧ cased upper (key s) = K) →
  (∀ s, s ∈ rows → cased upper (key s) = K → value s = V) →
  as_dict_loop upper rows acc !! K = Some V.
Proof.
  revert acc. induction rows as [|r rows IH]; intros acc H Hall.
  { destruct H as [H|(s & Hs & _)]; [done|by apply elem_of_nil in Hs]. }
  rewrite as_dict_loop_cons. apply IH.
  - destruct (decide (cased upper (key r) = K)) as [Heq|Hne].
    + left. rewrite Heq, lookup_insert_eq. f_equal. apply Hall; [by left|done].
    + destruct H as [H|(s & Hs & HK)].
      * left. by rewrite lookup_insert_ne.
      * right. apply elem_of_cons in Hs as [->|Hs]; [done|by exists s].
  - intros s Hs. apply Hall. by right.
Qed.

Lemma NoDup_fmap_eq {A B} (f : A → B) (l : list A) x y :
  NoDup (f <$> l) → x ∈ l → y ∈ l → f x = f y → x = y.
Proof.
  induction l as [|a l IH]; intros Hnd Hx Hy Hf.
  { by apply elem_of_nil in Hx. }
  rewrite fmap_cons in Hnd. apply NoDup_cons in Hnd as [Hfresh Hnd].
  apply elem_of_cons in Hx as [->|Hx], Hy as [->|Hy]; [done| | |by apply IH].
  - destruct Hfresh. rewrite Hf. by apply list_elem_of_fmap_2.
  - destruct Hfresh. rewrite <- Hf. by apply list_elem_of_fmap_2.
Qed.

Lemma as_dict_rows db from_group upper :
  (∀ g, from_group = Some g → ∃ grp, grp ∈ groups db ∧ group_key grp = g) →
  as_dict db from_group upper
  = Ok (as_dict_loop upper (selected db from_group) ∅).
Proof.
  intros Hg. unfold as_dict. destruct from_group as [g|]; [|done].
  destruct (Hg g eq_refl) as (grp & Hin & Hk).
  destruct (group_first_or_404_found _ _ _ Hin Hk) as (grp' & -> & Hk').
  simpl. by rewrite (group_settings_of_key _ _ _ Hk').
Qed.

(** ** [update] and what can be read afterwards *)



(** C8, amended. [as_dict(from_group, upper)]: an unknown group key raises
    NotFound; otherwise a dict is returned whose every entry comes from a row of the
    group (of the whole table when no group is given), whose keys are the
    keys of exactly these rows, in upper case when [upper] is set and as
    stored otherwise, and which maps each of these keys to the row's value
    when no two rows share a key in the requested casing. *)
Theorem as_dict_contents db from_group upper :
  (∀ g, from_group = Some g →
        (∀ grp, grp ∈ groups db → group_key grp ≠ g) →
        as_dict db from_group upper = Raise NotFound) ∧
  ((∀ g, from_group = Some g → ∃ grp, grp ∈ groups db ∧ group_key grp = g) →
   ∃ m, as_dict db from_group upper = Ok m ∧
     (∀ K V, m !! K = Some V →
        ∃ s, s ∈ selected db from_group ∧
             cased upper (key s) = K ∧ value s = V) ∧
     (∀ s, s ∈ selected db from_group → is_Some (m !! cased upper (key s))) ∧
     (NoDup ((λ s, cased upper (key s)) <$> selected db from_group) →
        ∀ s, s ∈ selected db from_group →
             m !! cased upper (key s) = Some (value s)) ∧
     (∀ K, is_Some (m !! K) →
        if upper then str_upper K = K
        else ∃ s, s ∈ settings db ∧ key s = K)).
Proof.
  split.
  - intros g -> Hno. unfold as_dict.
    by rewrite (group_first_or_404_missing _ _ Hno).
  - intros Hg. rewrite (as_dict_rows _ _ _ Hg). eexists. split; [done|].
    split; [|split; [|split]].
    + intros K V H. apply as_dict_loop_sound in H as [H|H]; [|done].
      by rewrite lookup_empty in H.
    + intros s Hs. apply as_dict_loop_dom. right. by exists s.
    + intros Hnd s Hs. apply as_dict_loop_agree; [right; by exists s|].
      intros s' Hs' Heq. f_equal.
      by apply (NoDup_fmap_eq (λ s, cased upper (key s))
                  (selected db from_group)).
    + intros K H. apply as_dict_loop_dom in H as [H|(s & Hs & HK)].
      { rewrite lookup_empty in H. by destruct H. }
      destruct upper; simpl in HK.
      * rewrite <- HK. apply str_upper_idemp.
      * exists s. split; [|done]. destruct from_group; [|done].
        by apply list_elem_of_filter in Hs as [_ Hs].
Qed.


End RegistryProperties.

(** ** The registry claims on the sample data *)

(** C1. An entry whose lower-cased key is not stored: [.first()] gives None
    and the assignment to its [value] raises AttributeError, not NotFound.
    The entry before it stays committed and the config is not written. *)
Theorem update_unknown_key_raises_attribute_error :
  ∃ db',
    update Sample.py_eq Sample.store_value Sample.db
           [("per_page", Sample.Int 1); ("nope", Sample.Str "x")]
           (Some Sample.no_config)
    = (db', Some Sample.no_config, Raise AttributeError) ∧
    value <$> settings db'
    = [Sample.Str "FlaskBB"; Sample.Int 1; Sample.Str "light"] ∧
    @Raise unit AttributeError ≠ Raise NotFound.
Proof.
  eexists. split; [vm_compute; reflexivity|]. split; [reflexivity|].
  intros H. discriminate H.
Qed.





(** It also fails for a value the column refuses, and for a value that
    compares equal to the stored one without being it. *)
Lemma update_none_raises_integrity_error :
  update Sample.py_eq Sample.store_value Sample.db
         [("per_page", Sample.NoneVal)] None
  = (Sample.db, None, Raise IntegrityError).
Proof. vm_compute. reflexivity. Qed.

Lemma update_equal_value_keeps_stored :
  update Sample.py_eq Sample.store_value
         (Sample.db_with [Sample.registration])
         [("registration", Sample.Bool true)] None
  = (Sample.db_with [Sample.registration], None, Ok tt) ∧
  value Sample.registration = Sample.Int 1.
Proof. split; [vm_compute|]; reflexivity. Qed.

Lemma as_dict_contents_witness :
  as_dict Sample.db (Some "nowhere") true = Raise NotFound ∧
  ∃ m, as_dict Sample.db (Some "general") true = Ok m ∧
       m !! "SITE_NAME" = Some (Sample.Str "FlaskBB") ∧
       m !! "THEME" = None.
Proof.
  split.
  - apply (proj1 (as_dict_contents Sample.db (Some "nowhere") true)
             "nowhere" eq_refl).
    intros grp Hin Hk. vm_compute in Hin.
    repeat (apply elem_of_cons in Hin as [->|Hin]; [discriminate Hk|]).
    by apply elem_of_nil in Hin.
  - destruct (proj2 (as_dict_contents Sample.db (Some "general") true))
      as (m & Hm & Hsound & _ & Hexact & _).
    { intros g Hg. injection Hg as <-. exists Sample.general.
      split; [apply list_elem_of_here | reflexivity]. }
    exists m. split; [exact Hm|]. split.
    + apply (λ Hnd, Hexact Hnd Sample.site_name).
      * apply (bool_decide_unpack _). vm_compute. exact I.
      * vm_compute. apply list_elem_of_here.
    + destruct (m !! "THEME") as [V|] eqn:HV; [|reflexivity].
      destruct (Hsound _ _ HV) as (s & Hs & Hk & _). vm_compute in Hs.
      repeat (apply elem_of_cons in Hs as [->|Hs]; [discriminate Hk|]).
      by apply elem_of_nil in Hs.
Defined.

(** The claim C8 as worded fails when two rows share a key in the requested
    casing: with [upper=True] the rows "a" and "A" give the single entry
    "A", which holds the value of the later row. *)
Lemma upper_cased_keys_collide :
  ¬ (∀ (db : database Sample.obj) from_group upper m,
       as_dict db from_group upper = Ok m →
       ∀ s, s ∈ selected db from_group →
            m !! cased upper (key s) = Some (value s)).
Proof.
  intros H.
  specialize (H (Sample.db_with [Sample.row_a; Sample.row_A]) None true _
                eq_refl Sample.row_a (list_elem_of_here _ _)).
  vm_compute in H. discriminate H.
Qed.



(** * Further properties of the form synthesis *)

Section FormFurther.

Context {pyobj : Type}.
Variable call : pyobj → result pyobj.
Variable accepts : option pyobj → option pyobj → bool.
Implicit Types (s : Setting pyobj) (d : gmap string pyobj)
  (F : gmap string (field pyobj)).

(** The kind a field class stands for. *)
Definition field_kind (f : field pyobj) : string :=
  match f with
  | IntegerField _ _ _ => "integer"
  | FloatField _ _ _ => "float"
  | TextField _ _ _ => "string"
  | SelectMultipleField _ _ _ _ => "selectmultiple"
  | SelectField _ _ _ _ => "select"
  | BooleanField _ _ => "boolean"
  end.

Definition field_choices (f : field pyobj) : option pyobj :=
  match f with
  | SelectMultipleField _ c _ _ | SelectField _ _ c _ => Some c
  | _ => None
  end.

Definition field_coerce (f : field pyobj) : option (coercion pyobj) :=
  match f with
  | SelectMultipleField _ _ c _ | SelectField _ c _ _ => Some c
  | _ => None
  end.

(** What an iteration that returned has put on the class. *)
Definition describes s (f : field pyobj) : Prop :=
  field_kind f = value_type s ∧
  field_label f = name s ∧
  field_description f = description s.

Lemma get_form_setting_describes s F F' :
  get_form_setting call accepts s F = Ok F' →
  F' = F ∨ ∃ f, F' = <[key s := f]> F ∧ describes s f.
Proof.
  intros H. destruct (extra s) as [d|] eqn:He;
    [|by rewrite (get_form_setting_none _ _ _ _ He) in H].
  rewrite (get_form_setting_mapping _ _ _ _ _ He) in H.
  destruct (bounds_accepted accepts (value_type s) d); [|done].
  destruct (recognized (value_type s)) eqn:Hvt.
  2: { rewrite (gen_field_unrecognized _ _ _ _ Hvt) in H. injection H as <-.
       by left. }
  right. destruct (recognized_cases _ Hvt) as [Hk|[Hk|[Hk|[Hk|[Hk|Hk]]]]].
  - rewrite (gen_field_integer _ _ _ _ Hk) in H. injection H as <-.
    eexists. split; [done|]. unfold describes. by rewrite Hk.
  - rewrite (gen_field_float _ _ _ _ Hk) in H. injection H as <-.
    eexists. split; [done|]. unfold describes. by rewrite Hk.
  - rewrite (gen_field_string _ _ _ _ Hk) in H. injection H as <-.
    eexists. split; [done|]. unfold describes. by rewrite Hk.
  - rewrite (gen_field_boolean _ _ _ _ Hk) in H. injection H as <-.
    eexists. split; [done|]. unfold describes. by rewrite Hk.
  - rewrite (gen_field_select _ _ _ _ Hk) in H.
    destruct (gen_coerce s) as [c|]; [|done]. simpl in H.
    destruct (gen_choices call s) as [ch|]; [|done]. injection H as <-.
    eexists. split; [done|]. unfold describes. by rewrite Hk.
  - rewrite (gen_field_selectmultiple _ _ _ _ Hk) in H.
    destruct (gen_coerce s) as [c|]; [|done]. simpl in H.
    destruct (gen_choices call s) as [ch|]; [|done]. injection H as <-.
    eexists. split; [done|]. unfold describes. by rewrite Hk.
Qed.

Lemma get_form_loop_origin l F F' k f :
  get_form_loop call accepts l F = Ok F' →
  F' !! k = Some f →
  F !! k = Some f ∨ ∃ s, s ∈ l ∧ key s = k ∧ describes s f.
Proof.
  revert F. induction l as [|s l IH]; intros F H Hf; simpl in H.
  { injection H as <-. by left. }
  apply bind_inv_ok in H as (F1 & Hs & Hl).
  destruct (IH F1 Hl Hf) as [HF1|(s' & Hs' & Hk & Hd)];
    [|right; exists s'; split; [by right|done]].
  apply get_form_setting_describes in Hs as [->|(f0 & -> & Hd)]; [by left|].
  destruct (decide (key s = k)) as [Heq|Hne].
  - rewrite Heq, lookup_insert_eq in HF1. injection HF1 as ->.
    right. exists s. split; [by left|done].
  - rewrite lookup_insert_ne in HF1 by done. by left.
Qed.

(** X2. Every field of a form that [get_form] returned was set by a setting
    of the group: it sits under that setting's key, its class is the one of
    the setting's kind, and its label and description are the setting's
    name and description. *)
Theorem get_form_fields_from_settings db group form k f :
  get_form call accepts db group = Ok form →
  form !! k = Some f →
  ∃ s, s ∈ group_settings db group ∧ key s = k ∧
       field_kind f = value_type s ∧
       field_label f = name s ∧
       field_description f = description s.
Proof.
  intros Hform Hf.
  destruct (get_form_loop_origin _ _ _ _ _ Hform Hf) as [H|H]; [|done].
  by rewrite lookup_empty in H.
Qed.

(** X3. The field of a select or selectmultiple setting: its choices are
    what the call of [extra["choices"]] returns during the synthesis, its
    coercion is [extra["coerce"]] when present and [unicode] otherwise; when
    the call raises, the synthesis raises the same exception. *)
Theorem get_form_select_field s d p F :
  extra s = Some d →
  select_like (value_type s) = true →
  d !! "choices" = Some p →
  match call p with
  | Ok c =>
      ∃ f, get_form_setting call accepts s F = Ok (<[key s := f]> F) ∧
           field_kind f = value_type s ∧
           field_choices f = Some c ∧
           field_coerce f =
             Some (match d !! "coerce" with
                   | Some g => coerce_with g
                   | None => unicode
                   end)
  | Raise e => get_form_setting call accepts s F = Raise e
  end.
Proof.
  intros He Hvt Hp.
  rewrite (get_form_setting_some _ _ _ _ _ He
             (bounds_accepted_select_like _ _ _ Hvt)).
  destruct (select_like_cases _ Hvt) as [Hk|Hk].
  - rewrite (gen_field_select _ _ _ _ Hk), (gen_coerce_some _ _ He),
      (gen_choices_some _ _ _ _ He Hp).
    destruct (call p) as [c|e]; [|done]. eexists. split; [done|].
    by rewrite Hk.
  - rewrite (gen_field_selectmultiple _ _ _ _ Hk), (gen_coerce_some _ _ He),
      (gen_choices_some _ _ _ _ He Hp).
    destruct (call p) as [c|e]; [|done]. eexists. split; [done|].
    by rewrite Hk.
Qed.

(** X4. The loop stops at the first setting that raises: the outcome is
    that exception whatever settings follow it. *)
Theorem get_form_stops_at_first_error pre s post post' F F1 e :
  get_form_loop call accepts pre F = Ok F1 →
  get_form_setting call accepts s F1 = Raise e →
  get_form_loop call accepts (pre ++ s :: post) F = Raise e ∧
  get_form_loop call accepts (pre ++ s :: post) F
  = get_form_loop call accepts (pre ++ s :: post') F.
Proof.
  intros Hpre Hs.
  by rewrite !(get_form_loop_raises_at _ _ _ _ _ _ _ _ Hpre Hs).
Qed.

(** A setting at which the loop body raises: its [extra] is unset, or a
    bound it gives to [Length] is refused, or it is of a select kind and
    has no "choices" entry or one whose call raises. *)
Definition refused s : Prop :=
  extra s = None ∨
  ∃ d, extra s = Some d ∧
       (bounds_accepted accepts (value_type s) d = false ∨
        (select_like (value_type s) = true ∧
         (d !! "choices" = None ∨
          ∃ p e, d !! "choices" = Some p ∧ call p = Raise e))).

Lemma get_form_setting_refused s :
  refused s → ∃ e, ∀ F, get_form_setting call accepts s F = Raise e.
Proof.
  intros [He|(d & He & [Hb|[Hvt [Hc|(p & e & Hp & Hc)]]])].
  - exists TypeError. intros F. by apply get_form_setting_none.
  - exists AssertionError. intros F.
    by rewrite (get_form_setting_mapping _ _ _ _ _ He), Hb.
  - exists KeyError. intros F. by apply (get_form_setting_no_choices _ _ _ d).
  - exists e. intros F.
    rewrite (get_form_setting_some _ _ _ _ _ He
               (bounds_accepted_select_like _ _ _ Hvt)).
    destruct (select_like_cases _ Hvt) as [Hk|Hk].
    + by rewrite (gen_field_select _ _ _ _ Hk), (gen_coerce_some _ _ He),
        (gen_choices_some _ _ _ _ He Hp), Hc.
    + by rewrite (gen_field_selectmultiple _ _ _ _ Hk),
        (gen_coerce_some _ _ He), (gen_choices_some _ _ _ _ He Hp), Hc.
Qed.

Lemma get_form_loop_returns l F :
  Forall (synthesizable call accepts) l →
  ∃ F', get_form_loop call accepts l F = Ok F'.
Proof.
  revert F. induction l as [|s l IH]; intros F Hall; [by exists F|].
  apply Forall_cons in Hall as [Hs Hall].
  destruct (get_form_setting_ok call accepts s F Hs) as (F1 & HF1).
  destruct (IH F1 Hall) as (F' & HF'). exists F'. simpl. by rewrite HF1.
Qed.

(** X1. The outcome of [get_form]. It returns a form when every setting of
    the group has a mapping as [extra], with bounds that [Length] accepts
    where it is given them and, for the select kinds, a "choices" entry
    whose call returns. It raises when some setting of the group has an
    unset [extra], or a bound that [Length] refuses, or is of a select kind
    without a "choices" entry or with one whose call raises. *)
Theorem get_form_outcome db group :
  (Forall (synthesizable call accepts) (group_settings db group) →
   ∃ form, get_form call accepts db group = Ok form) ∧
  (∀ s, s ∈ group_settings db group → refused s →
        ∃ e, get_form call accepts db group = Raise e).
Proof.
  split.
  - apply get_form_loop_returns.
  - intros s Hin Hs. destruct (get_form_setting_refused s Hs) as (e & He).
    by apply (get_form_loop_raises _ _ _ s e).
Qed.

(** X15. A bound that [Length] refuses: a setting whose kind occurs in the
    word "string" and is not integer or float gives its "min" to
    [Length(min=)] and its "max" to [Length(max=)]; when the constructor
    refuses one of them, the iteration raises AssertionError and the group
    that holds the setting gets no form. *)
Theorem get_form_refused_bound db group s d :
  s ∈ group_settings db group →
  extra s = Some d →
  bounds_accepted accepts (value_type s) d = false →
  (∀ F, get_form_setting call accepts s F = Raise AssertionError) ∧
  (∃ e, get_form call accepts db group = Raise e) ∧
  ((∃ m, d !! "min" = Some m ∧ accepts (Some m) None = false) ∨
   (∃ m, d !! "max" = Some m ∧ accepts None (Some m) = false)) ∧
  in_tuple (value_type s) ["integer"; "float"] = false ∧
  str_contains (value_type s) "string" = true.
Proof.
  intros Hin He Hb.
  assert (∀ F, get_form_setting call accepts s F = Raise AssertionError) as Hs.
  { intros F. by rewrite (get_form_setting_mapping _ _ _ _ _ He), Hb. }
  split; [done|]. split.
  { by apply (get_form_loop_raises _ _ _ s AssertionError). }
  unfold bounds_accepted, bound_accepted in Hb.
  destruct (in_tuple (value_type s) ["integer"; "float"]).
  { by destruct (d !! "min"), (d !! "max"). }
  destruct (str_contains (value_type s) "string").
  2: { by destruct (d !! "min"), (d !! "max"). }
  split; [|done]. apply andb_false_iff in Hb as [Hb|Hb].
  - left. destruct (d !! "min") as [m|]; [by exists m | done].
  - right. destruct (d !! "max") as [m|]; [by exists m | done].
Qed.

End FormFurther.

(** * Further properties of the registry *)

Section RegistryFurther.

Context {pyobj : Type}.
Variable py_eq : pyobj → pyobj → bool.
Variable store : pyobj → result unit.
Implicit Types (r s : Setting pyobj) (db : database pyobj)
  (acc upd m : gmap string pyobj) (items : list (string * pyobj)).

(** ** The outcome of [update] *)

Lemma update_entry_keys k v db acc db' acc' :
  update_entry py_eq store k v db acc = Ok (db', acc') →
  key <$> settings db' = key <$> settings db.
Proof.
  intros H. apply update_entry_rows in H as [_ H].
  by apply touched_by_keys in H.
Qed.

Lemma update_loop_keys items db acc :
  key <$> settings (update_loop py_eq store items db acc).1
  = key <$> settings db.
Proof.
  apply (touched_by_keys items). apply update_loop_rows.
Qed.

Lemma update_entry_ok k v db acc s :
  query_setting db (str_lower k) = Some s →
  py_eq v (value s) = true ∨ store v = Ok tt →
  ∃ db', update_entry py_eq store k v db acc
         = Ok (db', <[str_upper (str_lower k) := v]> acc).
Proof.
  intros Hq Hv. unfold update_entry, session_commit. rewrite Hq.
  pose proof (query_setting_Some _ _ _ Hq) as [_ Hk]. simpl. rewrite Hk.
  destruct (py_eq v (value s)); simpl; [by eexists|].
  destruct Hv as [Hv|Hv]; [done|]. rewrite Hv. simpl. by eexists.
Qed.

Lemma update_loop_returns_when items db acc :
  (∀ k v, (k, v) ∈ items → ∃ s, s ∈ settings db ∧ key s = str_lower k) →
  (∀ k v, (k, v) ∈ items → store v = Ok tt) →
  ∃ db', update_loop py_eq store items db acc = (db', Ok (noted items acc)).
Proof.
  revert db acc. induction items as [|[k v] items IH]; intros db acc Hf Hst.
  { by exists db. }
  destruct (Hf k v) as (s & Hs & Hk); [by left|].
  destruct (query_setting_exists _ _ _ Hs Hk) as (s' & Hq).
  destruct (update_entry_ok k v db acc s' Hq) as (db1 & He).
  { right. apply (Hst k v). by left. }
  simpl. rewrite He.
  apply (IH db1 (<[str_upper (str_lower k) := v]> acc)).
  - intros k' v' Hin. destruct (Hf k' v') as (s1 & Hs1 & Hk1); [by right|].
    apply (same_keys_exists (settings db) (settings db1) s1); [|done..].
    by apply update_entry_keys in He.
  - intros k' v' Hin. apply (Hst k' v'). by right.
Qed.

Lemma update_loop_raise items db acc db' e :
  update_loop py_eq store items db acc = (db', Raise e) →
  (e = AttributeError ∧
   ∃ k v, (k, v) ∈ items ∧ ∀ s, s ∈ settings db → key s ≠ str_lower k) ∨
  (∃ k v, (k, v) ∈ items ∧ store v = Raise e).
Proof.
  revert db acc. induction items as [|[k v] items IH]; intros db acc H;
    simpl in H; [done|].
  destruct (update_entry py_eq store k v db acc) as [[db1 upd1]|e1] eqn:He.
  - destruct (IH _ _ H) as [(-> & k' & v' & Hin & Hno)|(k' & v' & Hin & Hst)].
    + left. split; [done|]. exists k', v'. split; [by right|].
      intros s Hs Hk. apply update_entry_keys in He.
      destruct (same_keys_exists (settings db) (settings db1) s
                  (str_lower k') He Hs Hk) as (s1 & Hs1 & Hk1).
      by apply (Hno s1 Hs1).
    + right. exists k', v'. split; [by right|done].
  - injection H as _ ->.
    apply update_entry_raise in He as [[-> Hq]|(s & _ & _ & Hst)].
    + left. split; [done|]. exists k, v. split; [by left|].
      by apply query_setting_None.
    + right. exists k, v. split; [by left|done].
Qed.

(** X5. The outcome of [update]. It returns when the lower-cased key of
    every entry is the key of a stored setting and every value can be
    written to the column; it returns only if every entry names a stored
    setting. When it raises, the application's config is left as it was,
    and the exception is AttributeError for an entry that names no stored
    setting, or the one that writing the value of an entry raised. *)
Theorem update_outcome db items app :
  ((∀ k v, (k, v) ∈ items → ∃ s, s ∈ settings db ∧ key s = str_lower k) →
   (∀ k v, (k, v) ∈ items → store v = Ok tt) →
   (update py_eq store db items app).2 = Ok tt) ∧
  ((update py_eq store db items app).2 = Ok tt →
   ∀ k v, (k, v) ∈ items → ∃ s, s ∈ settings db ∧ key s = str_lower k) ∧
  (∀ e, (update py_eq store db items app).2 = Raise e →
        (update py_eq store db items app).1.2 = app ∧
        ((e = AttributeError ∧
          ∃ k v, (k, v) ∈ items ∧
                 ∀ s, s ∈ settings db → key s ≠ str_lower k) ∨
         (∃ k v, (k, v) ∈ items ∧ store v = Raise e))).
Proof.
  rewrite update_unfold. simpl. split; [|split].
  - intros Hf Hst.
    destruct (update_loop_returns_when items db ∅ Hf Hst) as (db' & ->).
    done.
  - destruct (update_loop py_eq store items db ∅) as [db' [upd|e]] eqn:Hl;
      [|done].
    intros _. by apply (update_loop_found _ _ _ _ _ _ _ Hl).
  - intros e He.
    destruct (update_loop py_eq store items db ∅) as [db' [upd|e']] eqn:Hl;
      [done|].
    simpl in *. injection He as ->. split; [done|].
    by apply (update_loop_raise _ _ _ _ _ Hl).
Qed.

(** X6. No transaction spans the entries: when the entries up to some point
    go through and the next one names no stored setting, the database is
    left as those first entries made it, the entries after it are not
    applied, and the config is not written. *)
Theorem update_stops_at_unknown_key db pre k v post app db1 :
  update py_eq store db pre None = (db1, None, Ok tt) →
  (∀ s, s ∈ settings db → key s ≠ str_lower k) →
  update py_eq store db (pre ++ (k, v) :: post) app
  = (db1, app, Raise AttributeError).
Proof.
  intros Hpre Hno. unfold update in *. rewrite update_loop_app.
  pose proof (update_loop_keys pre db ∅) as Hkeys.
  destruct (update_loop py_eq store pre db ∅) as [db2 [upd|e]] eqn:Hl; [|done].
  injection Hpre as ->. simpl in *. unfold update_entry.
  destruct (query_setting db1 (str_lower k)) as [s|] eqn:Hq; [|done].
  apply query_setting_Some in Hq as [Hs Hk].
  destruct (same_keys_exists (settings db1) (settings db) s (str_lower k))
    as (s0 & Hs0 & Hk0); [done..|].
  by destruct (Hno s0 Hs0).
Qed.

(** X7. Whatever its outcome, [update] keeps the groups, the number and
    order of the rows and every column of a row but [value]; a row that no
    entry names is left exactly as it was. *)
Theorem update_keeps_rows db items app :
  groups (update py_eq store db items app).1.1 = groups db ∧
  Forall2 (λ r r', set_value r (value r') = r' ∧
                   ((∀ k v, (k, v) ∈ items → key r ≠ str_lower k) → r' = r))
          (settings db) (settings (update py_eq store db items app).1.1).
Proof.
  rewrite update_unfold. simpl. exact (update_loop_rows _ _ items db ∅).
Qed.

(** ** [update] and the other operations *)

Lemma get_form_setting_same_columns call accepts r r'
    (F : gmap string (field pyobj)) :
  same_columns r r' →
  get_form_setting call accepts r' F = get_form_setting call accepts r F.
Proof. intros H. rewrite <- H. reflexivity. Qed.

Lemma get_form_loop_same_columns call accepts (l l' : list (Setting pyobj))
    (F : gmap string (field pyobj)) :
  Forall2 same_columns l l' →
  get_form_loop call accepts l' F = get_form_loop call accepts l F.
Proof.
  intros H. revert F. induction H as [|r r' l l' Hr _ IH]; intros F; [done|].
  simpl. rewrite (get_form_setting_same_columns _ _ _ _ _ Hr).
  destruct (get_form_setting call accepts r F) as [F1|e]; simpl;
    [apply IH | done].
Qed.

Lemma group_settings_same_columns db db' group :
  Forall2 same_columns (settings db) (settings db') →
  Forall2 same_columns (group_settings db group) (group_settings db' group).
Proof.
  unfold group_settings.
  induction 1 as [|r r' l l' Hr _ IH]; [constructor|].
  rewrite !filter_cons, (same_columns_settingsgroup _ _ Hr).
  destruct (decide (settingsgroup r = group_key group)); [|exact IH].
  by constructor.
Qed.

(** X8. The form of a group does not depend on the stored values: after an
    [update], whatever its outcome, [get_form] gives what it gave before. *)
Theorem get_form_after_update call accepts db items app group :
  get_form call accepts (update py_eq store db items app).1.1 group
  = get_form call accepts db group.
Proof.
  rewrite update_unfold. simpl. unfold get_form.
  apply get_form_loop_same_columns, group_settings_same_columns.
  destruct (update_loop_rows py_eq store items db ∅) as [_ H].
  eapply Forall2_impl; [exact H|]. by intros r r' [? _].
Qed.

(** ** Repeating an [update] *)

Lemma query_setting_commit db s' k :
  query_setting (commit s' db) k
  = (λ r, if String.eqb (key r) (key s') then set_value r (value s') else r)
      <$> query_setting db k.
Proof.
  unfold query_setting, commit. simpl.
  induction (settings db) as [|r l IH]; [done|]. simpl.
  destruct (String.eqb (key r) (key s')) eqn:E; simpl;
    (destruct (String.eqb (key r) k); simpl; rewrite ?E; [done | exact IH]).
Qed.

Lemma commit_twice s1 s2 db :
  key s1 = key s2 → value s1 = value s2 →
  commit s1 (commit s2 db) = commit s2 db.
Proof.
  intros Hk Hv. unfold commit. simpl. f_equal. rewrite map_map.
  apply map_ext. intros r. rewrite Hk, Hv.
  destruct (String.eqb (key r) (key s2)) eqn:E; simpl; by rewrite E.
Qed.

Lemma commit_comm s1 s2 db :
  key s1 ≠ key s2 →
  commit s1 (commit s2 db) = commit s2 (commit s1 db).
Proof.
  intros Hne. unfold commit. simpl. f_equal. rewrite !map_map.
  apply map_ext. intros r.
  destruct (String.eqb (key r) (key s1)) eqn:E1,
           (String.eqb (key r) (key s2)) eqn:E2; simpl;
    rewrite ?E1, ?E2; try done.
  apply String.eqb_eq in E1, E2. by rewrite <- E1, <- E2 in Hne.
Qed.

(** An entry is settled in a database when applying it writes nothing new:
    its key names a row, and its value compares equal to the stored one or
    can be written and is already the value of the rows of that key. *)
Definition settled (k : string) (v : pyobj) db : Prop :=
  ∃ s, query_setting db (str_lower k) = Some s ∧
       (py_eq v (value s) = true ∨
        (store v = Ok tt ∧ commit (set_value s v) db = db)).

Lemma settled_entry k v db acc :
  settled k v db →
  update_entry py_eq store k v db acc
  = Ok (db, <[str_upper (str_lower k) := v]> acc).
Proof.
  intros (s & Hq & Hv). unfold update_entry, session_commit. rewrite Hq.
  pose proof (query_setting_Some _ _ _ Hq) as [_ Hk]. simpl. rewrite Hk.
  destruct (py_eq v (value s)); simpl; [done|].
  destruct Hv as [Hv|[Hst Hc]]; [done|]. rewrite Hst. simpl. by rewrite Hc.
Qed.

Lemma update_entry_settles k v db acc db' acc' :
  update_entry py_eq store k v db acc = Ok (db', acc') → settled k v db'.
Proof.
  intros H.
  apply update_entry_inv in H as (s & Hq & _ & [[Heq ->]|(_ & Hst & ->)]).
  - exists s. split; [done | by left].
  - exists (set_value s v). split.
    + rewrite query_setting_commit, Hq. simpl. by rewrite String.eqb_refl.
    + right. split; [done|]. by apply commit_twice.
Qed.

Lemma update_entry_keeps_settled k v k' v' db acc db' acc' :
  settled k v db →
  str_lower k' ≠ str_lower k →
  update_entry py_eq store k' v' db acc = Ok (db', acc') →
  settled k v db'.
Proof.
  intros (s & Hq & Hv) Hne H.
  apply update_entry_inv in H as (s' & Hq' & _ & [[_ ->]|(_ & _ & ->)]).
  { by exists s. }
  pose proof (query_setting_Some _ _ _ Hq) as [_ Hk].
  pose proof (query_setting_Some _ _ _ Hq') as [_ Hk'].
  assert (key s ≠ key s') as Hkeys by (by rewrite Hk, Hk').
  exists s. split.
  - rewrite query_setting_commit, Hq. simpl.
    destruct (String.eqb_spec (key s) (key s')) as [E|_]; [by destruct Hkeys|].
    done.
  - destruct Hv as [Hv|[Hst Hc]]; [by left|]. right. split; [done|].
    rewrite commit_comm by done. by rewrite Hc.
Qed.

Lemma update_loop_keeps_settled items k v db acc db' upd :
  settled k v db →
  (∀ k' v', (k', v') ∈ items → str_lower k' ≠ str_lower k) →
  update_loop py_eq store items db acc = (db', Ok upd) →
  settled k v db'.
Proof.
  revert db acc. induction items as [|[k0 v0] items IH]; intros db acc Hs Hne H;
    simpl in H.
  { by injection H as <- _. }
  destruct (update_entry py_eq store k0 v0 db acc) as [[db1 upd1]|e] eqn:He;
    [|done].
  apply (IH db1 upd1); [|intros k' v' Hin; apply (Hne k' v'); by right|done].
  apply (update_entry_keeps_settled k v k0 v0 db acc db1 upd1); [done| |done].
  apply (Hne k0 v0). by left.
Qed.

Lemma update_loop_settles items db acc db' upd :
  NoDup ((λ e, str_lower e.1) <$> items) →
  update_loop py_eq store items db acc = (db', Ok upd) →
  ∀ k v, (k, v) ∈ items → settled k v db'.
Proof.
  revert db acc. induction items as [|[k0 v0] items IH];
    intros db acc Hnd H k v Hin.
  { by apply elem_of_nil in Hin. }
  simpl in H. rewrite fmap_cons in Hnd. apply NoDup_cons in Hnd as [Hnew Hnd].
  destruct (update_entry py_eq store k0 v0 db acc) as [[db1 upd1]|e] eqn:He;
    [|done].
  apply elem_of_cons in Hin as [Heq|Hin]; [|by apply (IH db1 upd1)].
  injection Heq as -> ->.
  apply (update_loop_keeps_settled items k0 v0 db1 upd1 db' upd); [| |done].
  - by apply update_entry_settles in He.
  - intros k' v' Hin Hk. apply Hnew. simpl. rewrite <- Hk.
    by apply (list_elem_of_fmap_2 (λ e, str_lower e.1) items (k', v')).
Qed.

Lemma update_loop_settled items db acc :
  (∀ k v, (k, v) ∈ items → settled k v db) →
  update_loop py_eq store items db acc = (db, Ok (noted items acc)).
Proof.
  revert acc. induction items as [|[k v] items IH]; intros acc Hs; [done|].
  simpl. rewrite settled_entry by (apply Hs; by left).
  apply IH. intros k' v' Hin. apply Hs. by right.
Qed.

(** X9. Repeating an [update] that returned, on the database and the
    application it left, changes neither, when no two of its entries have
    the same lower-cased key. *)
Theorem update_idempotent db items app db1 app1 :
  NoDup ((λ e, str_lower e.1) <$> items) →
  update py_eq store db items app = (db1, app1, Ok tt) →
  update py_eq store db1 items app1 = (db1, app1, Ok tt).
Proof.
  unfold update. intros Hnd H.
  destruct (update_loop py_eq store items db ∅) as [db1' [upd|e]] eqn:Hl;
    [|done].
  injection H as -> <-.
  pose proof (update_loop_noted _ _ _ _ _ _ _ Hl) as ->.
  rewrite update_loop_settled
    by (by apply (update_loop_settles items db ∅ db1 (noted items ∅))).
  destruct app as [a|]; [|done]. unfold config_update. simpl.
  by rewrite (assoc_L (∪)), (idemp_L (∪)).
Qed.

(** X10. Feeding [update] the dict that [as_dict(upper=True)] returns gives
    back the same database and writes that dict into the config, when every
    stored key is what lower-casing its upper-cased form gives, no two
    stored keys have the same upper-cased form, and every stored value
    compares equal to itself or can be written to the column. *)
Theorem update_of_as_dict_upper db m a :
  (∀ r, r ∈ settings db → str_lower (str_upper (key r)) = key r) →
  NoDup ((λ r, str_upper (key r)) <$> settings db) →
  (∀ r, r ∈ settings db →
        py_eq (value r) (value r) = true ∨ store (value r) = Ok tt) →
  as_dict db None true = Ok m →
  update py_eq store db (map_to_list m) (Some a)
  = (db, Some (config_update a m), Ok tt).
Proof.
  intros Hlow Hnd Hval Hm. injection Hm as Hm.
  assert (NoDup (key <$> settings db)) as Hkeys.
  { apply (NoDup_fmap_1 str_upper). by rewrite <- list_fmap_compose. }
  assert (∀ K V, (K, V) ∈ map_to_list m →
            ∃ s, s ∈ settings db ∧ str_upper (key s) = K ∧ value s = V ∧
                 key s = str_lower K) as Hitems.
  { intros K V Hin. apply elem_of_map_to_list in Hin. rewrite <- Hm in Hin.
    apply as_dict_loop_sound in Hin as [Hin|(s & Hs & HK & HV)];
      [by rewrite lookup_empty in Hin|].
    exists s. simpl in HK. repeat split; [done..|].
    by rewrite <- HK, (Hlow s Hs). }
  unfold update. rewrite update_loop_settled.
  - assert (noted (map_to_list m) ∅ = m) as ->; [|done].
    apply map_eq. intros K. destruct (m !! K) as [V|] eqn:HK.
    + apply elem_of_map_to_list in HK.
      destruct (Hitems K V HK) as (s & Hs & HKs & _ & Hk).
      assert (str_upper (str_lower K) = K) as HUL by (by rewrite <- Hk).
      apply list_elem_of_split in HK as Hsplit.
      destruct Hsplit as (pre & post & Hsplit).
      rewrite Hsplit.
      assert (noted (pre ++ (K, V) :: post) ∅ !! str_upper (str_lower K)
              = Some V) as Hn; [|by rewrite HUL in Hn].
      apply noted_last. intros K' V' Hin' Heq.
      assert ((K', V') ∈ map_to_list m) as Hin
        by (rewrite Hsplit; apply elem_of_app; right; by right).
      destruct (Hitems K' V' Hin) as (s' & _ & HKs' & _ & Hk').
      assert (K' = K) as -> by (by rewrite <- HKs', Hk', Heq, <- Hk).
      pose proof (NoDup_fst_map_to_list m) as Hfst.
      rewrite Hsplit, fmap_app, fmap_cons in Hfst.
      apply NoDup_app in Hfst as (_ & _ & Hfst).
      apply NoDup_cons in Hfst as [Hfst _]. apply Hfst.
      by apply (list_elem_of_fmap_2 fst post (K, V')).
    + rewrite noted_frame; [apply lookup_empty|].
      intros K' V' Hin ->.
      destruct (Hitems K' V' Hin) as (s & _ & HKs & _ & Hk).
      apply elem_of_map_to_list in Hin. rewrite <- Hk, HKs in HK. congruence.
  - intros K V Hin. destruct (Hitems K V Hin) as (s & Hs & _ & <- & Hk).
    destruct (query_setting_exists _ _ _ Hs Hk) as (s' & Hq).
    pose proof (query_setting_Some _ _ _ Hq) as [Hs' Hk'].
    assert (s' = s) as ->.
    { apply (NoDup_fmap_eq key (settings db)); [done..|]. by rewrite Hk, Hk'. }
    exists s. split; [done|]. destruct (Hval s Hs) as [Hv|Hv]; [by left|].
    right. split; [done|]. destruct db as [g rows]. unfold commit. simpl in *.
    f_equal. rewrite <- (list_fmap_id rows) at 2.
    apply list_fmap_ext. intros i r Hr. apply list_elem_of_lookup_2 in Hr.
    destruct (String.eqb_spec (key r) (key s)) as [E|_]; [|done].
    assert (r = s) as -> by (by apply (NoDup_fmap_eq key rows)).
    apply set_value_same.
Qed.

(** ** [as_dict] over groups and rows *)

Lemma as_dict_group_inv db g upper m :
  as_dict db (Some g) upper = Ok m →
  m = as_dict_loop upper (selected db (Some g)) ∅.
Proof.
  unfold as_dict, group_first_or_404. intros H.
  destruct (find _ (groups db)) as [grp|] eqn:Hf; [|done].
  apply find_some in Hf as [_ Hk]. apply String.eqb_eq in Hk.
  simpl in H. injection H as <-. by rewrite (group_settings_of_key _ _ _ Hk).
Qed.

(** X11. When no two stored keys coincide in the requested casing, the dict
    of a group is a part of the dict of all settings. *)
Theorem as_dict_group_within_all db g upper mg mall :
  NoDup ((λ s, cased upper (key s)) <$> settings db) →
  as_dict db (Some g) upper = Ok mg →
  as_dict db None upper = Ok mall →
  mg ⊆ mall.
Proof.
  intros Hnd Hg Hall. apply as_dict_group_inv in Hg as ->.
  injection Hall as <-. apply map_subseteq_spec. intros K V H.
  apply as_dict_loop_sound in H as [H|(s & Hs & HK & HV)];
    [by rewrite lookup_empty in H|].
  apply list_elem_of_filter in Hs as [_ Hs].
  apply as_dict_loop_agree; [right; by exists s|].
  intros s' Hs' HK'. rewrite <- HV. f_equal.
  apply (NoDup_fmap_eq (λ s, cased upper (key s)) (settings db)); [done..|].
  by rewrite HK, HK'.
Qed.

(** X12. When several rows give the same key, the dict holds the value of
    the one that comes last in the iteration. *)
Theorem as_dict_last_row_wins db from_group upper pre s post m :
  selected db from_group = pre ++ s :: post →
  (∀ s', s' ∈ post → cased upper (key s') ≠ cased upper (key s)) →
  as_dict db from_group upper = Ok m →
  m !! cased upper (key s) = Some (value s).
Proof.
  intros Hsplit Hlast Hm.
  assert (m = as_dict_loop upper (selected db from_group) ∅) as ->.
  { destruct from_group as [g|]; [by apply as_dict_group_inv|].
    by injection Hm as <-. }
  rewrite Hsplit. unfold as_dict_loop. rewrite fold_left_app.
  fold (as_dict_loop upper pre ∅).
  match goal with |- fold_left ?f _ _ !! _ = _ =>
    change (fold_left f (s :: post) (as_dict_loop upper pre ∅))
      with (as_dict_loop upper (s :: post) (as_dict_loop upper pre ∅)) end.
  rewrite as_dict_loop_cons. apply as_dict_loop_agree.
  - left. apply lookup_insert_eq.
  - intros s' Hs' HK. by destruct (Hlast s' Hs').
Qed.

(** ** Deleting *)

Lemma find_filter {A} (f : A → bool) (P : A → Prop) `{!∀ x, Decision (P x)}
    (l : list A) :
  (∀ x, f x = true → P x) → find f (filter P l) = find f l.
Proof.
  intros HfP. induction l as [|x l IH]; [done|].
  rewrite filter_cons. simpl. destruct (f x) eqn:Hfx.
  - rewrite decide_True by auto. simpl. by rewrite Hfx.
  - destruct (decide (P x)); [simpl; by rewrite Hfx | done].
Qed.

(** X13. Deleting a group deletes the settings that belong to it and no
    others: afterwards [as_dict] with its key raises NotFound, while
    [as_dict] and [get_form] for a group of another key give what they gave
    before. *)
Theorem SettingsGroup_delete_cascades db self :
  (∀ s, s ∈ settings (SettingsGroup_delete self db) ↔
        s ∈ settings db ∧ settingsgroup s ≠ group_key self) ∧
  (∀ upper, as_dict (SettingsGroup_delete self db) (Some (group_key self)) upper
            = Raise NotFound) ∧
  (∀ g upper, g ≠ group_key self →
     as_dict (SettingsGroup_delete self db) (Some g) upper
     = as_dict db (Some g) upper) ∧
  (∀ call accepts group, group_key group ≠ group_key self →
     get_form call accepts (SettingsGroup_delete self db) group
     = get_form call accepts db group).
Proof.
  assert (∀ group, group_key group ≠ group_key self →
            group_settings (SettingsGroup_delete self db) group
            = group_settings db group) as Hsame.
  { intros group Hne. unfold group_settings. simpl.
    rewrite list_filter_filter. apply list_filter_iff. intros s.
    split; [by intros [? _]|]. intros Hs. split; [done|]. by rewrite Hs. }
  split; [|split; [|split]].
  - intros s. simpl. rewrite list_elem_of_filter. tauto.
  - intros upper. unfold as_dict.
    rewrite group_first_or_404_missing; [done|].
    intros grp Hin. simpl in Hin. by apply list_elem_of_filter in Hin as [? _].
  - intros g upper Hne. unfold as_dict, group_first_or_404. simpl.
    rewrite find_filter.
    2: { intros grp Hk. apply String.eqb_eq in Hk. by rewrite Hk. }
    destruct (find _ (groups db)) as [grp|] eqn:Hf; [|done].
    apply find_some in Hf as [_ Hk]. apply String.eqb_eq in Hk.
    simpl. rewrite Hsame; [done|]. by rewrite Hk.
  - intros call accepts group Hne. unfold get_form. by rewrite Hsame.
Qed.

Lemma as_dict_loop_delete k (rows : list (Setting pyobj)) acc :
  as_dict_loop false (filter (λ s, key s ≠ k) rows) (delete k acc)
  = delete k (as_dict_loop false rows acc).
Proof.
  revert acc. induction rows as [|r rows IH]; intros acc; [done|].
  rewrite filter_cons, (as_dict_loop_cons false r rows). simpl.
  destruct (decide (key r ≠ k)) as [Hne|Heq].
  - rewrite as_dict_loop_cons. simpl.
    rewrite <- IH. by rewrite delete_insert_ne.
  - apply dec_stable in Heq. rewrite <- IH, Heq. by rewrite delete_insert_eq.
Qed.

(** X14. Deleting a setting removes its key from [as_dict()] and leaves the
    other entries as they were; an [update] that names the deleted key, the
    key being in lower case, then raises AttributeError and changes
    nothing. *)
Theorem Setting_delete_effects db self :
  (∀ m, as_dict db None false = Ok m →
        as_dict (Setting_delete self db) None false = Ok (delete (key self) m)) ∧
  (str_lower (key self) = key self →
   ∀ v app, update py_eq store (Setting_delete self db) [(key self, v)] app
            = (Setting_delete self db, app, Raise AttributeError)).
Proof.
  split.
  - intros m Hm. injection Hm as <-. unfold as_dict. simpl. f_equal.
    rewrite <- as_dict_loop_delete. by rewrite delete_empty.
  - intros Hlow v app. unfold update. simpl. unfold update_entry. rewrite Hlow.
    destruct (query_setting (Setting_delete self db) (key self)) as [s|] eqn:Hq;
      [|done].
    apply query_setting_Some in Hq as [Hs Hk]. simpl in Hs.
    by apply list_elem_of_filter in Hs as [? _].
Qed.

End RegistryFurther.

(** ** The further properties on the sample data *)

Lemma get_form_fields_from_settings_witness :
  ∃ s, s ∈ group_settings Sample.db Sample.appearance ∧ key s = "theme" ∧
       value_type s = "select" ∧ name s = "Theme".
Proof.
  destruct (get_form_fields_from_settings Sample.call Sample.length_accepts
              Sample.db Sample.appearance
              (<["theme" := SelectField "Theme" unicode
                   (Sample.Pairs [("light", "Light"); ("dark", "Dark")])
                   "Default theme"]> ∅)
              "theme"
              (SelectField "Theme" unicode
                 (Sample.Pairs [("light", "Light"); ("dark", "Dark")])
                 "Default theme"))
    as (s & Hs & Hk & Hkind & Hname & _).
  - vm_compute. reflexivity.
  - vm_compute. reflexivity.
  - exists s. split; [exact Hs|]. split; [exact Hk|].
    split; [by rewrite <- Hkind | by rewrite <- Hname].
Defined.

Lemma get_form_select_field_witness :
  ∃ f, get_form_setting Sample.call Sample.length_accepts Sample.theme ∅
       = Ok (<["theme" := f]> ∅) ∧
       field_choices f
       = Some (Sample.Pairs [("light", "Light"); ("dark", "Dark")]) ∧
       field_coerce f = Some unicode.
Proof.
  destruct (get_form_select_field Sample.call Sample.length_accepts
              Sample.theme
              {[ "choices" := Sample.Fun "available_themes" ]}
              (Sample.Fun "available_themes") ∅ eq_refl eq_refl eq_refl)
    as (f & Hf & _ & Hc & Hco).
  exists f. split; [exact Hf|]. split; [exact Hc | exact Hco].
Defined.

Lemma get_form_stops_at_first_error_witness :
  get_form_loop Sample.call Sample.length_accepts
    [Sample.site_name; Sample.registration; Sample.language] ∅
  = Raise TypeError.
Proof.
  apply (get_form_stops_at_first_error Sample.call Sample.length_accepts
           [Sample.site_name] Sample.registration [Sample.language] [] ∅
           (<["site_name" :=
                TextField "Site name" [Length (Some (Sample.Int 3)) None]
                          "Name of the site"]> ∅) TypeError).
  - vm_compute. reflexivity.
  - reflexivity.
Defined.

Lemma get_form_outcome_witness :
  (∃ form, get_form Sample.call Sample.length_accepts Sample.db Sample.general
           = Ok form) ∧
  (∃ e, get_form Sample.call Sample.length_accepts
          (Sample.db_with [Sample.site_name; Sample.registration])
          Sample.general = Raise e).
Proof.
  split.
  - apply (proj1 (get_form_outcome Sample.call Sample.length_accepts
                    Sample.db Sample.general)).
    change (group_settings Sample.db Sample.general)
      with [Sample.site_name; Sample.per_page].
    repeat apply Forall_cons_2; [| |apply Forall_nil_2];
      (eexists; split; [reflexivity|]; split; [reflexivity|];
       intros Hsel; vm_compute in Hsel; discriminate Hsel).
  - apply (proj2 (get_form_outcome Sample.call Sample.length_accepts
                    (Sample.db_with [Sample.site_name; Sample.registration])
                    Sample.general) Sample.registration).
    + vm_compute. apply list_elem_of_further, list_elem_of_here.
    + left. reflexivity.
Defined.

Lemma get_form_refused_bound_witness :
  get_form_setting Sample.call Sample.length_accepts Sample.nickname ∅
  = Raise AssertionError ∧
  ∃ e, get_form Sample.call Sample.length_accepts
         (Sample.db_with [Sample.site_name; Sample.nickname]) Sample.general
       = Raise e.
Proof.
  destruct (get_form_refused_bound Sample.call Sample.length_accepts
              (Sample.db_with [Sample.site_name; Sample.nickname])
              Sample.general Sample.nickname
              {[ "min" := Sample.Int (-1) ]})
    as (Hs & He & _).
  - vm_compute. apply list_elem_of_further, list_elem_of_here.
  - reflexivity.
  - vm_compute. reflexivity.
  - split; [apply Hs | exact He].
Defined.

Lemma update_outcome_witness :
  (update Sample.py_eq Sample.store_value Sample.db
          [("THEME", Sample.Str "dark"); ("per_page", Sample.Int 25)]
          (Some Sample.no_config)).2
  = Ok tt.
Proof.
  apply (proj1 (update_outcome Sample.py_eq Sample.store_value Sample.db
                  [("THEME", Sample.Str "dark"); ("per_page", Sample.Int 25)]
                  (Some Sample.no_config))).
  - intros k v Hin.
    apply elem_of_cons in Hin as [Heq|Hin]; [injection Heq as -> ->|].
    { exists Sample.theme. split; [|reflexivity].
      apply list_elem_of_further, list_elem_of_further, list_elem_of_here. }
    apply list_elem_of_singleton in Hin. injection Hin as -> ->.
    exists Sample.per_page. split; [|reflexivity].
    apply list_elem_of_further, list_elem_of_here.
  - intros k v Hin.
    apply elem_of_cons in Hin as [Heq|Hin]; [injection Heq as -> ->|].
    { reflexivity. }
    apply list_elem_of_singleton in Hin. injection Hin as -> ->. reflexivity.
Defined.

Lemma update_stops_at_unknown_key_witness :
  ∃ db1,
    update Sample.py_eq Sample.store_value Sample.db
      [("per_page", Sample.Int 1); ("nope", Sample.Str "x");
       ("site_name", Sample.Str "Foo")]
      (Some Sample.no_config)
    = (db1, Some Sample.no_config, Raise AttributeError) ∧
    value <$> settings db1
    = [Sample.Str "FlaskBB"; Sample.Int 1; Sample.Str "light"].
Proof.
  exists (update Sample.py_eq Sample.store_value Sample.db
            [("per_page", Sample.Int 1)] None).1.1. split.
  - apply (update_stops_at_unknown_key Sample.py_eq Sample.store_value
             Sample.db [("per_page", Sample.Int 1)] "nope" (Sample.Str "x")
             [("site_name", Sample.Str "Foo")]).
    + vm_compute. reflexivity.
    + intros s Hs Hk. simpl in Hs.
      repeat (apply elem_of_cons in Hs as [->|Hs]; [discriminate Hk|]).
      by apply elem_of_nil in Hs.
  - reflexivity.
Defined.

Lemma update_idempotent_witness :
  ∃ db1 app1,
    update Sample.py_eq Sample.store_value Sample.db
           [("theme", Sample.Str "dark")] (Some Sample.no_config)
    = (db1, app1, Ok tt) ∧
    update Sample.py_eq Sample.store_value db1
           [("theme", Sample.Str "dark")] app1
    = (db1, app1, Ok tt).
Proof.
  pose (res := update Sample.py_eq Sample.store_value Sample.db
                      [("theme", Sample.Str "dark")] (Some Sample.no_config)).
  assert (update Sample.py_eq Sample.store_value Sample.db
                 [("theme", Sample.Str "dark")] (Some Sample.no_config)
          = (res.1.1, res.1.2, Ok tt)) as Hu
    by (vm_compute; reflexivity).
  assert (NoDup ((λ e : string * Sample.obj, str_lower e.1)
                   <$> [("theme", Sample.Str "dark")])) as Hnd
    by (apply (bool_decide_unpack _); vm_compute; exact I).
  exists res.1.1, res.1.2. split; [exact Hu|].
  exact (update_idempotent _ _ _ _ _ _ _ Hnd Hu).
Defined.

Lemma update_of_as_dict_upper_witness :
  update Sample.py_eq Sample.store_value Sample.db
    (map_to_list (as_dict_loop true (settings Sample.db) ∅))
    (Some Sample.no_config)
  = (Sample.db,
     Some (config_update Sample.no_config
             (as_dict_loop true (settings Sample.db) ∅)),
     Ok tt).
Proof.
  apply update_of_as_dict_upper.
  - intros r Hr. simpl in Hr.
    repeat (apply elem_of_cons in Hr as [->|Hr]; [reflexivity|]).
    by apply elem_of_nil in Hr.
  - apply (bool_decide_unpack _). vm_compute. exact I.
  - intros r Hr. left. simpl in Hr.
    repeat (apply elem_of_cons in Hr as [->|Hr]; [reflexivity|]).
    by apply elem_of_nil in Hr.
  - reflexivity.
Defined.

Lemma as_dict_group_within_all_witness :
  as_dict_loop false (selected Sample.db (Some "general")) ∅
  ⊆ as_dict_loop false (settings Sample.db) ∅.
Proof.
  apply (as_dict_group_within_all Sample.db "general" false).
  - apply (bool_decide_unpack _). vm_compute. exact I.
  - reflexivity.
  - reflexivity.
Defined.

Lemma as_dict_last_row_wins_witness :
  ∃ m,
    as_dict (Sample.db_with [Sample.row_a; Sample.row_A]) None true = Ok m ∧
    m !! "A" = Some (Sample.Int 2).
Proof.
  eexists. split; [reflexivity|].
  apply (as_dict_last_row_wins
           (Sample.db_with [Sample.row_a; Sample.row_A]) None true
           [Sample.row_a] Sample.row_A []).
  - reflexivity.
  - intros s' Hs'. by apply elem_of_nil in Hs'.
  - reflexivity.
Defined.

Lemma SettingsGroup_delete_cascades_witness :
  as_dict (SettingsGroup_delete Sample.general Sample.db) (Some "general") false
  = Raise NotFound ∧
  as_dict (SettingsGroup_delete Sample.general Sample.db) (Some "appearance")
          false
  = as_dict Sample.db (Some "appearance") false.
Proof.
  destruct (SettingsGroup_delete_cascades Sample.db Sample.general)
    as (_ & Hgone & Hother & _).
  split; [apply (Hgone false) | apply (Hother "appearance" false)].
  intros H. discriminate H.
Defined.

Lemma Setting_delete_effects_witness :
  update Sample.py_eq Sample.store_value
         (Setting_delete Sample.theme Sample.db)
         [("theme", Sample.Str "dark")] None
  = (Setting_delete Sample.theme Sample.db, None, Raise AttributeError).
Proof.
  apply (proj2 (Setting_delete_effects Sample.py_eq Sample.store_value
                  Sample.db Sample.theme) eq_refl).
Defined.
